(** * sleepyForm.js: the [restForm] submission controller

    A shallow embedding of [src/sleepyForm.js] (the jQuery plugin
    [$.fn.restForm]) and the properties of its submission cycle:
    field collection ([getFormData]), the pre- and post-submit callbacks,
    the error router ([errorsCallback]), the JSON helper ([getJSONObject]),
    the submit listener with its [success] and [error] callbacks, and the
    default serializer.

    Modelling conventions.
    - A JavaScript object used as a dictionary (the payload [dataObj],
      [settings.data], [settings.fieldHandlers]) is a [gmap string _] of its
      own enumerable properties; [for .. in] / [$.each] over it is
      [map_fold].  The order in which the properties of [fieldHandlers] are
      enumerated (the order in which they were inserted) is not modelled:
      the properties below leave the order of the [data()] calls open.  The
      names of form controls come from the document and are arbitrary
      strings, [__proto__] included ([assign_field]); the option objects
      [settings.data] and [settings.fieldHandlers] have no own property of
      that name.
    - A JavaScript string, a sequence of 16-bit code units, is the [string]
      that holds each code unit in one, two or three bytes, laid out as
      UTF-8 lays out a code point below 0x10000 ([encode_unit],
      [js_string]).  Every JavaScript string, lone surrogates included, has
      one such [string]; a string of ASCII characters is itself; equality
      and concatenation are those of the [string]s.
    - The jQuery and language functions the plugin calls are modelled after
      their documentation: [$.inArray] (first index or -1), [$.each],
      [$.extend] (properties whose value is [undefined] are not copied),
      [JSON.stringify] (ECMAScript's QuoteJSONString and
      SerializeJSONProperty).  [$.parseJSON] is a parameter.
    - Every call that leaves the plugin (a hook or renderer of [settings],
      a field handler, a DOM or console operation, [$.ajax]) is recorded, in
      order, in the [trace] of the [World].  The model follows the runs in
      which each of these calls returns.  Hooks and handlers supplied in
      [options] are functions and are taken to return; the default
      renderers are code of the plugin and do not always: the default
      [clearFieldErrors] and [renderFieldErrors] build the selector
      ['[name=' + fieldName + ']'] without quoting the name, on which
      jQuery throws for a name such as [user[email]] and does not for a
      plain identifier ([selector_safe]); the default renderers of errors
      call [join] on the value, which throws unless the value is an array.
      A property that depends on these calls returning says so in a
      hypothesis ([clear_returns], [route_returns]).
    - The state the plugin itself reads or writes (the serialized fields,
      the named elements, the [disabled] attribute of the submit controls,
      the pending timers, the outstanding requests, the global object) is
      explicit in the [World]. *)

From Stdlib Require Import ZArith String Ascii List Lia.
From stdpp Require Import base gmap strings list fin_maps pretty.


(** ** JavaScript values *)

#[local] Set Warnings "-register-all".

(** [VNum n] is a number that is an integer, of absolute value below 1e21. *)
Inductive JsVal : Type :=
| VUndef
| VNull
| VBool (b : bool)
| VNum (n : Z)
| VStr (s : string)
| VArr (items : list JsVal)
| VObj (props : list (string * JsVal)).

(** [v !== undefined] *)
Definition is_undefined (v : JsVal) : bool :=
  match v with VUndef => true | _ => false end.

(** [typeof v === 'object'] (which holds of [null] too) *)
Definition typeof_object (v : JsVal) : bool :=
  match v with VNull | VArr _ | VObj _ => true | _ => false end.

(** [v === false] *)
Definition is_false (v : JsVal) : bool :=
  match v with VBool false => true | _ => false end.

(** ** Settings *)

(** A custom field handler [{clear: .., error: .., data: ..}]; each of the
    three functions is optional. *)
Record FieldHandler : Type := {
  fh_clear : bool;          (* hasOwnProperty('clear') *)
  fh_error : bool;          (* the [error] property is truthy *)
  fh_data : option JsVal    (* [Some r]: [data] is truthy and [data()] returns [r] *)
}.

(** The options the plugin reads itself.  The hooks and renderers of
    [settings] ([beforeSubmit], [afterSubmit], [success], [afterError],
    [clearFormErrors], [renderFormErrors], [clearFieldErrors],
    [renderFieldErrors]) are called, never inspected: each call is an
    [Event] below. *)
Record Settings : Type := {
  url : string;
  type : string;
  excludeFields : list string;
  data : gmap string JsVal;
  timeout : Z;
  disableSubmit : bool;
  fieldHandlers : gmap string FieldHandler;
  prepareData : gmap string JsVal → gmap string JsVal;
  serializeData : gmap string JsVal → string
}.

(** The request handed to [$.ajax]. *)
Record Request : Type := {
  r_url : string;
  r_type : string;
  r_timeout : Z;
  r_contentType : string;
  r_dataType : string;
  r_data : string
}.

(** The [jqXHR] object the transport passes to the [error] callback. *)
Record JqXHR : Type := {
  status : Z;
  responseText : JsVal
}.

(** ** Calls that leave the plugin *)

Inductive Event : Type :=
| EvStopPropagation
| EvSerializeArray                              (* self.serializeArray() *)
| EvData (k : string)                           (* fieldHandlers[k].data() *)
| EvPrepareData (d : gmap string JsVal)         (* settings.prepareData(d) *)
| EvSerializeData (d : gmap string JsVal)       (* settings.serializeData(d) *)
| EvDisableSubmit                               (* [type=submit] .attr('disabled', ..) *)
| EvClearFormErrors
| EvFieldClear (name : string)                  (* fieldHandlers[name].clear() *)
| EvClearFieldErrors (name : string)
| EvBeforeSubmit
| EvAjax (req : Request)
| EvSetTimeout (ms : Z)                         (* setTimeout(re-enable, ms) *)
| EvEnableSubmit                                (* [type=submit] .removeAttr('disabled') *)
| EvAfterSubmit
| EvSuccess (resp : JsVal)
| EvRenderFormErrors (v : JsVal)
| EvFieldError (k : string) (v : JsVal)         (* fieldHandlers[k].error(v) *)
| EvRenderFieldErrors (k : string) (v : JsVal)
| EvAfterError (statusText : string) (level : Z) (jq : JqXHR)
| EvConsoleLog (msg : JsVal).

(** ** The world the plugin runs in *)

Record World : Type := {
  formData : list (string * string);   (* what self.serializeArray() returns *)
  namedElems : list string;            (* the name of each element of self.find('[name]') *)
  globals : gmap string JsVal;         (* the bindings of the global object *)
  submitDisabled : bool;               (* the disabled attribute of the [type=submit] controls *)
  timers : nat;                        (* pending re-enable timers *)
  inflight : list Request;             (* requests issued and not yet answered *)
  trace : list Event
}.

Definition set_trace (t : list Event) (w : World) : World :=
  {| formData := formData w; namedElems := namedElems w; globals := globals w;
     submitDisabled := submitDisabled w; timers := timers w;
     inflight := inflight w; trace := t |}.

Definition set_submitDisabled (b : bool) (w : World) : World :=
  {| formData := formData w; namedElems := namedElems w; globals := globals w;
     submitDisabled := b; timers := timers w;
     inflight := inflight w; trace := trace w |}.

Definition set_timers (n : nat) (w : World) : World :=
  {| formData := formData w; namedElems := namedElems w; globals := globals w;
     submitDisabled := submitDisabled w; timers := n;
     inflight := inflight w; trace := trace w |}.

Definition set_inflight (l : list Request) (w : World) : World :=
  {| formData := formData w; namedElems := namedElems w; globals := globals w;
     submitDisabled := submitDisabled w; timers := timers w;
     inflight := l; trace := trace w |}.

(** ** A state monad over the world *)

Definition Act (A : Type) : Type := World → A * World.

#[global] Instance Act_ret : MRet Act := λ A a w, (a, w).
#[global] Instance Act_bind : MBind Act :=
  λ A B k m w, let '(a, w') := m w in k a w'.

Definition skip : Act unit := mret tt.

(** Read a component of the world; change the world. *)
Definition gets {A} (f : World → A) : Act A := λ w, (f w, w).
Definition modify (f : World → World) : Act unit := λ w, (tt, f w).

Definition emit (e : Event) : Act unit :=
  modify (λ w, set_trace (trace w ++ [e]) w).

Definition exec {A} (m : Act A) (w : World) : World := snd (m w).
Definition eval {A} (m : Act A) (w : World) : A := fst (m w).

(** The events a run of [m] appends to the trace. *)
Definition emitted {A} (m : Act A) (w : World) : list Event :=
  drop (length (trace w)) (trace (exec m w)).

(** ** Field collection: [getFormData] *)

(** [$.inArray(x, l)]: the index of the first element [=== x], or [-1]. *)
Fixpoint inArray_from (i : Z) (x : string) (l : list string) : Z :=
  match l with
  | [] => (-1)%Z
  | y :: l' => if String.eqb y x then i else inArray_from (i + 1)%Z x l'
  end.

Definition inArray (x : string) (l : list string) : Z := inArray_from 0 x l.

(** The guard of the field loop:
    [!settings.excludeFields.length && $.inArray(name, excludeFields) == -1] *)
Definition field_included (excl : list string) (name : string) : bool :=
  Nat.eqb (length excl) 0 && Z.eqb (inArray name excl) (-1).

(** [dataObj[name] = value] for a string [value].  Under the name
    [__proto__] the object inherits an accessor whose setter ignores a value
    that is not an object: no property is created.  Every other name is
    created or overwritten as a property of [dataObj]. *)
Definition assign_field (name value : string) (dataObj : gmap string JsVal)
    : gmap string JsVal :=
  if String.eqb name "__proto__" then dataObj else <[name := VStr value]> dataObj.

(** The loop over [formData]. *)
Definition collect_fields (excl : list string) (fd : list (string * string))
    (dataObj : gmap string JsVal) : gmap string JsVal :=
  fold_left
    (λ d f, if field_included excl f.1 then assign_field f.1 f.2 d else d)
    fd dataObj.

(** [$.each(settings.fieldHandlers, function (k, v) { if (v.data) dataObj[k] = v.data(); })] *)
Definition overlay_handlers (hs : gmap string FieldHandler)
    (dataObj : gmap string JsVal) : gmap string JsVal :=
  map_fold
    (λ k v d, match fh_data v with Some r => <[k := r]> d | None => d end)
    dataObj hs.

(** The [data()] calls of that loop, one for each handler that has a [data]
    function.  The code makes them in the order in which the properties of
    [fieldHandlers] were inserted; [map_fold] makes them in an order of its
    own, and only what holds in every order is proved of them. *)
Definition data_calls (hs : gmap string FieldHandler) : list Event :=
  map_fold
    (λ k v evs, match fh_data v with Some _ => evs ++ [EvData k] | None => evs end)
    [] hs.

(** [$.extend(target, options)]: every property of [options] whose value is
    not [undefined] is assigned to [target]. *)
Definition extend (target options : gmap string JsVal) : gmap string JsVal :=
  map_fold (λ k v d, if is_undefined v then d else <[k := v]> d) target options.

(** The object [getFormData] hands to [settings.prepareData]. *)
Definition collected (s : Settings) (fd : list (string * string)) : gmap string JsVal :=
  extend (overlay_handlers (fieldHandlers s) (collect_fields (excludeFields s) fd ∅))
         (data s).

Definition getFormData (s : Settings) : Act (gmap string JsVal) :=
  (* var dataObj = {}; var formData = self.serializeArray(); *)
  emit EvSerializeArray ;;
  fd ← gets formData ;
  (* for (...) if (...) dataObj[formData[i].name] = formData[i].value; *)
  let dataObj := collect_fields (excludeFields s) fd ∅ in
  (* $.each(settings.fieldHandlers, ...) *)
  modify (λ w, set_trace (trace w ++ data_calls (fieldHandlers s)) w) ;;
  let dataObj := overlay_handlers (fieldHandlers s) dataObj in
  (* $.extend(dataObj, settings.data); *)
  let dataObj := extend dataObj (data s) in
  (* dataObj = settings.prepareData(dataObj); return dataObj; *)
  emit (EvPrepareData dataObj) ;;
  mret (prepareData s dataObj).

(** ** The pre- and post-submit callbacks *)

Fixpoint for_each {A} (l : list A) (f : A → Act unit) : Act unit :=
  match l with
  | [] => skip
  | x :: l' => f x ;; for_each l' f
  end.

(** [self.find('[type=submit]').attr('disabled', 'disabled')] *)
Definition disable_submit : Act unit :=
  emit EvDisableSubmit ;; modify (set_submitDisabled true).

(** [self.find('[type=submit]').removeAttr('disabled')] *)
Definition enable_submit : Act unit :=
  emit EvEnableSubmit ;; modify (set_submitDisabled false).

(** [setTimeout(function () { .. removeAttr('disabled') }, ms)] *)
Definition set_timeout (ms : Z) : Act unit :=
  emit (EvSetTimeout ms) ;; modify (λ w, set_timers (S (timers w)) w).

(** The per-element clear of [beforeSubmitCallback], when the call returns:
    [clear_returns] tells when the default [clearFieldErrors] does. *)
Definition clear_field (s : Settings) (name : string) : Act unit :=
  match fieldHandlers s !! name with
  | Some h => if fh_clear h then emit (EvFieldClear name)
              else emit (EvClearFieldErrors name)
  | None => emit (EvClearFieldErrors name)
  end.

(** A name that is a plain identifier: a letter or an underscore, then
    letters, digits, underscores and hyphens.  For such a name the selector
    ['[name=' + fieldName + ']'] of the default [clearFieldErrors] and
    [renderFieldErrors] is well formed and the renderer returns; for a name
    such as [user[email]] jQuery throws a syntax error. *)
Definition is_letter (c : ascii) : bool :=
  let n := N_of_ascii c in
  ((65 <=? n)%N && (n <=? 90)%N) || ((97 <=? n)%N && (n <=? 122)%N) || (n =? 95)%N.

Definition is_name_char (c : ascii) : bool :=
  let n := N_of_ascii c in
  is_letter c || ((48 <=? n)%N && (n <=? 57)%N) || (n =? 45)%N.

Fixpoint all_name_chars (s : string) : bool :=
  match s with
  | EmptyString => true
  | String c rest => is_name_char c && all_name_chars rest
  end.

Definition selector_safe (name : string) : bool :=
  match name with
  | EmptyString => false
  | String c rest => is_letter c && all_name_chars rest
  end.

(** The clear of the element named [name] returns: it is the handler's own
    [clear], or the default [clearFieldErrors] on a name it can select. *)
Definition clear_returns (s : Settings) (name : string) : bool :=
  match fieldHandlers s !! name with
  | Some h => fh_clear h || selector_safe name
  | None => selector_safe name
  end.

Definition beforeSubmitCallback (s : Settings) : Act unit :=
  (* Disable submit buttons until data is returned *)
  (if disableSubmit s then disable_submit else skip) ;;
  (* Clear form errors *)
  emit EvClearFormErrors ;;
  names ← gets namedElems ;
  for_each names (clear_field s) ;;
  emit EvBeforeSubmit.

Definition afterSubmitCallback (s : Settings) : Act unit :=
  (* Re-enable the submit buttons *)
  (if disableSubmit s then set_timeout 200 else skip) ;;
  emit EvAfterSubmit.

(** ** The error router: [errorsCallback] *)

Definition route_error (s : Settings) (kv : string * JsVal) : Act unit :=
  if String.eqb kv.1 "__all__" then emit (EvRenderFormErrors kv.2)
  else match fieldHandlers s !! kv.1 with
       | Some h => if fh_error h then emit (EvFieldError kv.1 kv.2)
                   else emit (EvRenderFieldErrors kv.1 kv.2)
       | None => emit (EvRenderFieldErrors kv.1 kv.2)
       end.

(** [errorObject] is given by the pairs [$.each] hands to the callback, in
    order: the properties of a plain object in enumeration order, the
    indexed elements of an array.  ([$.each] walks an object that has a
    [length] property as it walks an array; such objects are not among the
    lists of properties, see [array_like].)  Each call is taken to return:
    [route_returns] tells when the default renderers do. *)
Definition errorsCallback (s : Settings) (errorObject : list (string * JsVal)) : Act unit :=
  for_each errorObject (route_error s).

(** The object has a [length] property: [$.each] may walk it as an array,
    by index, and not by its properties. *)
Definition array_like (props : list (string * JsVal)) : bool :=
  existsb (λ kv, String.eqb kv.1 "length") props.

Definition is_array (v : JsVal) : bool :=
  match v with VArr _ => true | _ => false end.

(** The call [errorsCallback] makes for the entry [kv] returns: it is the
    handler's own [error], or a default renderer on an array of messages
    (both call [errorArray.join]) and, for [renderFieldErrors], on a name it
    can select. *)
Definition route_returns (s : Settings) (kv : string * JsVal) : bool :=
  if String.eqb kv.1 "__all__" then is_array kv.2
  else match fieldHandlers s !! kv.1 with
       | Some h => fh_error h || (selector_safe kv.1 && is_array kv.2)
       | None => selector_safe kv.1 && is_array kv.2
       end.

(** The properties [$.each] enumerates on a parsed JSON value: those of an
    object (one that is not [array_like]), the indexed elements of an
    array. *)
Definition props_of (v : JsVal) : list (string * JsVal) :=
  match v with
  | VObj props => props
  | VArr items => imap (λ i x, (pretty i, x)) items
  | _ => []
  end.

(** ** The helper [getJSONObject] *)

(** [o[name]] on an object given by its property list *)
Fixpoint prop_lookup (name : string) (props : list (string * JsVal)) : JsVal :=
  match props with
  | [] => VUndef
  | (k, v) :: rest => if String.eqb k name then v else prop_lookup name rest
  end.

(** [v.name]; [None] is the [TypeError] on [undefined] and [null]. *)
Definition get_member (v : JsVal) (name : string) : option JsVal :=
  match v with
  | VUndef | VNull => None
  | VObj props => Some (prop_lookup name props)
  | _ => Some VUndef
  end.

Section Transport.

(** [$.parseJSON]; [None] when it throws. *)
Variable parseJSON : JsVal → option JsVal.

(** The body never reads its parameter: it evaluates [jqXHR.responseText],
    and no enclosing function of [getJSONObject] binds [jqXHR], so the
    identifier is looked up in the global object. *)
Definition getJSONObject (jsonString : JsVal) : Act JsVal :=
  g ← gets globals ;
  mret
    (match g !! "jqXHR" with
     | None => VBool false                     (* ReferenceError, caught *)
     | Some jq =>
         match get_member jq "responseText" with
         | None => VBool false                 (* TypeError, caught *)
         | Some text =>
             match parseJSON text with
             | None => VBool false             (* parse error, caught *)
             | Some obj =>
                 match obj with
                 | VNull => VBool false
                 | _ => if typeof_object obj then obj else VBool false
                 end
             end
         end
     end).

(** ** The submit listener *)

(** [$.ajax({...})]: the request is issued and is outstanding until the
    transport answers it. *)
Definition ajax (req : Request) : Act unit :=
  emit (EvAjax req) ;; modify (λ w, set_inflight (inflight w ++ [req]) w).

Definition on_success (s : Settings) (resp : JsVal) : Act unit :=
  afterSubmitCallback s ;;
  emit (EvSuccess resp).

Definition form_wide (msg : string) : list (string * JsVal) :=
  [("__all__", VArr [VStr msg])].

Definition on_error (s : Settings) (jqXHR : JqXHR) (statusText : string) : Act unit :=
  afterSubmitCallback s ;;
  (* See if this is just a normal HTTP error (will have JSON) *)
  errors ← getJSONObject (responseText jqXHR) ;
  (if negb (is_false errors)
   then errorsCallback s (props_of errors) ;; emit (EvAfterError statusText 0 jqXHR)
   else skip) ;;
  (* Something else is going on, this needs more handling *)
  (if Z.eqb (status jqXHR) 0
   then errorsCallback s (form_wide "Internet connection Lost") ;;
        emit (EvAfterError statusText 1 jqXHR)
   else (* case 'parsererror': case 'timeout': case 'abort': default: *)
        errorsCallback s (form_wide statusText) ;;
        emit (EvAfterError statusText 2 jqXHR)) ;;
  emit (EvConsoleLog (VStr ("AJAX Exception: " +:+ statusText))) ;;
  emit (EvConsoleLog (VObj [("status", VNum (status jqXHR));
                            ("responseText", responseText jqXHR)])).

Definition submit_handler (s : Settings) : Act bool :=
  emit EvStopPropagation ;;
  (* var data = settings.serializeData(getFormData()); *)
  d ← getFormData s ;
  emit (EvSerializeData d) ;;
  let payload := serializeData s d in
  (* Call pre-submit handler *)
  beforeSubmitCallback s ;;
  ajax {| r_url := url s; r_type := type s; r_timeout := timeout s;
          r_contentType := "application/json"; r_dataType := "json";
          r_data := payload |} ;;
  mret false.

(** ** The event loop around one form instance *)

Inductive Response : Type :=
| Success (resp : JsVal)
| Failure (jqXHR : JqXHR) (statusText : string).

Inductive Trigger : Type :=
| ClickSubmit                    (* the user activates a [type=submit] control *)
| SubmitEvent                    (* a submit event from any other source *)
| Completion (r : Response)      (* the transport answers the oldest request *)
| TimerFires.                    (* a pending re-enable timer fires *)

Definition complete (s : Settings) (r : Response) : Act unit :=
  match r with
  | Success resp => on_success s resp
  | Failure jqXHR statusText => on_error s jqXHR statusText
  end.

Definition step (s : Settings) (t : Trigger) : Act unit :=
  match t with
  | ClickSubmit =>
      (* a disabled control does not submit its form *)
      disabled ← gets submitDisabled ;
      if (disabled : bool) then skip else (submit_handler s ;; skip)
  | SubmitEvent => submit_handler s ;; skip
  | Completion r =>
      pending ← gets inflight ;
      match (pending : list Request) return Act unit with
      | [] => skip
      | _ :: rest => modify (set_inflight rest) ;; complete s r
      end
  | TimerFires =>
      n ← gets timers ;
      match (n : nat) return Act unit with
      | O => skip
      | S n' => modify (set_timers n') ;; enable_submit
      end
  end.

Definition run (s : Settings) (ts : list Trigger) : Act unit :=
  for_each ts (step s).

End Transport.

(** The page as the plugin finds it when it is initialised. *)
Definition idle (fd : list (string * string)) (names : list string)
    (g : gmap string JsVal) : World :=
  {| formData := fd; namedElems := names; globals := g;
     submitDisabled := false; timers := 0; inflight := []; trace := [] |}.

(** The settings when [options] overrides nothing; [action] and [method] are
    the form's attributes, [stringify] is [JSON.stringify]. *)
Definition default_settings (action method : string)
    (stringify : gmap string JsVal → string) : Settings :=
  {| url := action; type := method; excludeFields := []; data := ∅;
     timeout := 30000; disableSubmit := true; fieldHandlers := ∅;
     prepareData := λ dataObj, dataObj;
     serializeData := stringify |}.

(** ** JavaScript strings *)

(** The bytes that stand for one 16-bit code unit: one byte below 0x80, two
    below 0x800, three otherwise, laid out as UTF-8 lays out a code point. *)
Definition encode_unit (u : N) : string :=
  if (u <? 128)%N then String (ascii_of_N u) EmptyString
  else if (u <? 2048)%N then
    String (ascii_of_N (192 + u / 64))
      (String (ascii_of_N (128 + u mod 64)) EmptyString)
  else
    String (ascii_of_N (224 + u / 4096))
      (String (ascii_of_N (128 + (u / 64) mod 64))
         (String (ascii_of_N (128 + u mod 64)) EmptyString)).

(** The [string] that stands for the JavaScript string of code units [us]. *)
Fixpoint js_string (us : list N) : string :=
  match us with
  | [] => EmptyString
  | u :: rest => encode_unit u +:+ js_string rest
  end.

(** The code units a [string] stands for, read off its bytes: the first
    byte of a code unit tells how many bytes it takes. *)
Fixpoint units_of (s : string) : list N :=
  match s with
  | EmptyString => []
  | String c1 rest1 =>
      let n1 := N_of_ascii c1 in
      if (n1 <? 128)%N then n1 :: units_of rest1
      else if (n1 <? 224)%N then
        match rest1 with
        | String c2 rest2 =>
            ((n1 - 192) * 64 + (N_of_ascii c2 - 128))%N :: units_of rest2
        | EmptyString => [n1]
        end
      else
        match rest1 with
        | String c2 (String c3 rest3) =>
            ((n1 - 224) * 4096 + (N_of_ascii c2 - 128) * 64
             + (N_of_ascii c3 - 128))%N :: units_of rest3
        | _ => [n1]
        end
  end.

(** ** The default serializer: [JSON.stringify] *)

(** [JSON.stringify] as ECMAScript defines it (since the 2019 edition a
    surrogate that is not part of a pair is written as its escape).  The
    functions work on the [string] that stands for a JavaScript string;
    [quote_chars_js_string] shows that on every such [string] they write
    what QuoteJSONString, transcribed below as [quote_units], writes for the
    code units.  The text written is a JavaScript string in its turn; the
    bytes the transport sends for it are outside the model. *)

Module JSON.

Definition quote_mark : ascii := ascii_of_nat 34.
Definition backslash : ascii := ascii_of_nat 92.

(** A lower-case hexadecimal digit. *)
Definition hex_digit (n : N) : ascii :=
  ascii_of_N (if (n <? 10)%N then 48 + n else 87 + n).

(** UnicodeEscape: [\uXXXX] for the code unit [u]. *)
Definition escape_unit (u : N) : string :=
  "\u" +:+ String (hex_digit (u / 4096))
             (String (hex_digit ((u / 256) mod 16))
                (String (hex_digit ((u / 16) mod 16))
                   (String (hex_digit (u mod 16)) EmptyString))).

(** QuoteJSONString on one code unit below 0x80 or one byte of a longer
    code unit: the two-character escapes, [\u00XX] for the other control
    characters, the character itself otherwise. *)
Definition quote_char (c : ascii) : string :=
  let n := N_of_ascii c in
  if (n =? 8)%N then "\b"
  else if (n =? 9)%N then "\t"
  else if (n =? 10)%N then "\n"
  else if (n =? 12)%N then "\f"
  else if (n =? 13)%N then "\r"
  else if (n =? 34)%N then String backslash (String quote_mark EmptyString)
  else if (n =? 92)%N then String backslash (String backslash EmptyString)
  else if (n <? 32)%N then escape_unit n
  else String c EmptyString.

(** The three bytes of a surrogate code unit (0xD800 to 0xDFFF) are 0xED, a
    byte from 0xA0 to 0xBF (up to 0xAF for a leading surrogate, from 0xB0
    for a trailing one) and a continuation byte. *)
Definition is_ED (c : ascii) : bool := (N_of_ascii c =? 237)%N.

Definition is_cont (c : ascii) : bool :=
  (128 <=? N_of_ascii c)%N && (N_of_ascii c <=? 191)%N.

Definition is_lead2 (c : ascii) : bool :=
  (160 <=? N_of_ascii c)%N && (N_of_ascii c <=? 175)%N.

Definition is_trail2 (c : ascii) : bool :=
  (176 <=? N_of_ascii c)%N && (N_of_ascii c <=? 191)%N.

(** The surrogate code unit whose second and third bytes are [c2], [c3]. *)
Definition surrogate_unit (c2 c3 : ascii) : N :=
  (53248 + (N_of_ascii c2 - 128) * 64 + (N_of_ascii c3 - 128))%N.

(** QuoteJSONString on the characters of a string: a leading surrogate
    followed by a trailing one stands for a code point and is copied; a
    surrogate on its own is written as its [\uXXXX] escape; every other
    code unit is quoted by [quote_char]. *)
Fixpoint quote_chars (s : string) : string :=
  match s with
  | EmptyString => EmptyString
  | String c1 rest1 =>
      match rest1 with
      | String c2 (String c3 rest3) =>
          if is_ED c1 && is_lead2 c2 && is_cont c3 then
            match rest3 with
            | String d1 (String d2 (String d3 rest6)) =>
                if is_ED d1 && is_trail2 d2 && is_cont d3
                then String c1 (String c2 (String c3
                       (String d1 (String d2 (String d3 (quote_chars rest6))))))
                else escape_unit (surrogate_unit c2 c3) +:+ quote_chars rest3
            | _ => escape_unit (surrogate_unit c2 c3) +:+ quote_chars rest3
            end
          else if is_ED c1 && is_trail2 c2 && is_cont c3 then
            escape_unit (surrogate_unit c2 c3) +:+ quote_chars rest3
          else quote_char c1 +:+ quote_chars rest1
      | _ => quote_char c1 +:+ quote_chars rest1
      end
  end.

Definition quote (s : string) : string :=
  String quote_mark (quote_chars s +:+ String quote_mark EmptyString).

Fixpoint join (parts : list string) : string :=
  match parts with
  | [] => EmptyString
  | [p] => p
  | p :: ps => p +:+ "," +:+ join ps
  end.

(** SerializeJSONProperty; [None] is [undefined]: such a property is left
    out of an object and reads [null] in an array.  A number is an integer
    below 1e21 and is written in decimal digits. *)
Fixpoint stringify_value (v : JsVal) : option string :=
  match v with
  | VUndef => None
  | VNull => Some "null"
  | VBool b => Some (if b then "true" else "false")
  | VNum n => Some (pretty n)
  | VStr s => Some (quote s)
  | VArr items =>
      Some ("[" +:+ join (map (λ x, default "null" (stringify_value x)) items) +:+ "]")
  | VObj props =>
      Some ("{" +:+ join (omap (λ kv, match stringify_value kv.2 with
                                       | Some t => Some (quote kv.1 +:+ ":" +:+ t)
                                       | None => None
                                       end) props) +:+ "}")
  end.

Definition member (kv : string * JsVal) : option string :=
  match stringify_value kv.2 with
  | Some t => Some (quote kv.1 +:+ ":" +:+ t)
  | None => None
  end.

(** [JSON.stringify(data)] on a payload object; its properties are
    enumerated in the order of [map_to_list]. *)
Definition stringify (d : gmap string JsVal) : string :=
  "{" +:+ join (omap member (map_to_list d)) +:+ "}".

(** ** The counterpart decoder, for objects whose values are strings *)

Definition is_ws (c : ascii) : bool :=
  let n := N_of_ascii c in
  (n =? 32)%N || (n =? 9)%N || (n =? 10)%N || (n =? 13)%N.

Fixpoint skip_ws (s : string) : string :=
  match s with
  | EmptyString => EmptyString
  | String c rest => if is_ws c then skip_ws rest else s
  end.

Definition all_ws (s : string) : bool :=
  match skip_ws s with EmptyString => true | _ => false end.

Definition hex_value (c : ascii) : option N :=
  let n := N_of_ascii c in
  if (48 <=? n)%N && (n <=? 57)%N then Some (n - 48)%N
  else if (97 <=? n)%N && (n <=? 102)%N then Some (n - 87)%N
  else if (65 <=? n)%N && (n <=? 70)%N then Some (n - 55)%N
  else None.

Definition hex4 (h1 h2 h3 h4 : ascii) : option N :=
  match hex_value h1, hex_value h2, hex_value h3, hex_value h4 with
  | Some a, Some b, Some c, Some d => Some (((a * 16 + b) * 16 + c) * 16 + d)%N
  | _, _, _, _ => None
  end.

(** The character a two-character escape stands for. *)
Definition unescape (e : ascii) : option ascii :=
  let n := N_of_ascii e in
  if (n =? 34)%N then Some quote_mark
  else if (n =? 92)%N then Some backslash
  else if (n =? 47)%N then Some (ascii_of_nat 47)
  else if (n =? 98)%N then Some (ascii_of_nat 8)
  else if (n =? 102)%N then Some (ascii_of_nat 12)
  else if (n =? 110)%N then Some (ascii_of_nat 10)
  else if (n =? 114)%N then Some (ascii_of_nat 13)
  else if (n =? 116)%N then Some (ascii_of_nat 9)
  else None.

Definition prepend (c : ascii) (r : option (string * string)) : option (string * string) :=
  match r with
  | Some (t, rest) => Some (String c t, rest)
  | None => None
  end.

Definition prepend_string (p : string) (r : option (string * string))
    : option (string * string) :=
  match r with
  | Some (t, rest) => Some (p +:+ t, rest)
  | None => None
  end.

(** The characters of a string literal, after its opening quote: the text
    and what follows the closing quote.  An escape [\uXXXX] stands for the
    code unit XXXX, whatever its value. *)
Fixpoint parse_chars (s : string) : option (string * string) :=
  match s with
  | EmptyString => None
  | String c rest =>
      if Ascii.eqb c quote_mark then Some (EmptyString, rest)
      else if Ascii.eqb c backslash then
        match rest with
        | EmptyString => None
        | String e rest1 =>
            if Ascii.eqb e "u" then
              match rest1 with
              | String h1 (String h2 (String h3 (String h4 rest2))) =>
                  match hex4 h1 h2 h3 h4 with
                  | Some u => prepend_string (encode_unit u) (parse_chars rest2)
                  | None => None
                  end
              | _ => None
              end
            else match unescape e with
                 | Some x => prepend x (parse_chars rest1)
                 | None => None
                 end
        end
      else if (N_of_ascii c <? 32)%N then None
      else prepend c (parse_chars rest)
  end.

Definition parse_string (s : string) : option (string * string) :=
  match skip_ws s with
  | String c rest => if Ascii.eqb c quote_mark then parse_chars rest else None
  | EmptyString => None
  end.

(** The members of an object, after its opening brace; a later member of the
    same name replaces an earlier one. *)
Fixpoint parse_members (fuel : nat) (s : string) (acc : gmap string JsVal)
    : option (gmap string JsVal) :=
  match fuel with
  | O => None
  | S fuel' =>
      match parse_string s with
      | None => None
      | Some (k, s1) =>
          match skip_ws s1 with
          | String c s2 =>
              if Ascii.eqb c ":" then
                match parse_string s2 with
                | None => None
                | Some (v, s3) =>
                    match skip_ws s3 with
                    | String d s4 =>
                        if Ascii.eqb d "," then
                          parse_members fuel' s4 (<[k := VStr v]> acc)
                        else if Ascii.eqb d "}" then
                          if all_ws s4 then Some (<[k := VStr v]> acc) else None
                        else None
                    | EmptyString => None
                    end
                end
              else None
          | EmptyString => None
          end
      end
  end.

(** [JSON.parse] on the texts that denote an object of strings; every member
    takes at least one character, so the length of the text is fuel enough. *)
Definition parse (text : string) : option (gmap string JsVal) :=
  match skip_ws text with
  | String c rest =>
      if Ascii.eqb c "{" then
        match skip_ws rest with
        | String d rest' =>
            if Ascii.eqb d "}" then (if all_ws rest' then Some ∅ else None)
            else parse_members (String.length text) rest ∅
        | EmptyString => None
        end
      else None
  | EmptyString => None
  end.

End JSON.

(** ** QuoteJSONString on code units *)

(** ECMAScript's QuoteJSONString, on the code units of a string and without
    the two quotes: what [JSON.quote_chars] is compared with. *)

(** A leading surrogate (0xD800 to 0xDBFF); a trailing one (0xDC00 to
    0xDFFF). *)
Definition is_lead (u : N) : bool := (55296 <=? u)%N && (u <=? 56319)%N.
Definition is_trail (u : N) : bool := (56320 <=? u)%N && (u <=? 57343)%N.

(** The code units of [\uXXXX]. *)
Definition escape_units (u : N) : list N :=
  [92; 117; N_of_ascii (JSON.hex_digit (u / 4096));
   N_of_ascii (JSON.hex_digit ((u / 256) mod 16));
   N_of_ascii (JSON.hex_digit ((u / 16) mod 16));
   N_of_ascii (JSON.hex_digit (u mod 16))]%N.

(** The code units QuoteJSONString writes for a code unit that is not a
    surrogate. *)
Definition quote_unit (u : N) : list N :=
  if (u =? 8)%N then [92; 98]%N
  else if (u =? 9)%N then [92; 116]%N
  else if (u =? 10)%N then [92; 110]%N
  else if (u =? 12)%N then [92; 102]%N
  else if (u =? 13)%N then [92; 114]%N
  else if (u =? 34)%N then [92; 34]%N
  else if (u =? 92)%N then [92; 92]%N
  else if (u <? 32)%N then escape_units u
  else [u].

(** The code units QuoteJSONString writes between the quotes, for a string
    given by its code units. *)
Fixpoint quote_units (us : list N) : list N :=
  match us with
  | [] => []
  | u :: rest =>
      if is_lead u then
        match rest with
        | v :: rest' =>
            if is_trail v then u :: v :: quote_units rest'
            else escape_units u ++ quote_units rest
        | [] => escape_units u ++ quote_units rest
        end
      else if is_trail u then escape_units u ++ quote_units rest
      else quote_unit u ++ quote_units rest
  end.

Definition is_string (v : JsVal) : bool :=
  match v with VStr _ => true | _ => false end.

(** Every value of the payload is a primitive string. *)
Definition only_strings (d : gmap string JsVal) : bool :=
  forallb (λ kv, is_string kv.2) (map_to_list d).

(** * The vocabulary of the properties *)

(** ** Worlds and traces *)

(** The world [w] with its four mutable components replaced. *)
Definition upd (w : World) (d : bool) (t : nat) (i : list Request)
    (tr : list Event) : World :=
  {| formData := formData w; namedElems := namedElems w; globals := globals w;
     submitDisabled := d; timers := t; inflight := i; trace := tr |}.

(** The calls [getFormData] makes, in order. *)
Definition collect_events (s : Settings) (fd : list (string * string)) : list Event :=
  [EvSerializeArray] ++ data_calls (fieldHandlers s) ++ [EvPrepareData (collected s fd)].

Definition clear_event (s : Settings) (name : string) : Event :=
  match fieldHandlers s !! name with
  | Some h => if fh_clear h then EvFieldClear name else EvClearFieldErrors name
  | None => EvClearFieldErrors name
  end.

Definition before_events (s : Settings) (names : list string) : list Event :=
  (if disableSubmit s then [EvDisableSubmit] else [])
  ++ [EvClearFormErrors] ++ map (clear_event s) names ++ [EvBeforeSubmit].

Definition after_events (s : Settings) : list Event :=
  (if disableSubmit s then [EvSetTimeout 200] else []) ++ [EvAfterSubmit].

Definition route_event (s : Settings) (kv : string * JsVal) : Event :=
  if String.eqb kv.1 "__all__" then EvRenderFormErrors kv.2
  else match fieldHandlers s !! kv.1 with
       | Some h => if fh_error h then EvFieldError kv.1 kv.2
                   else EvRenderFieldErrors kv.1 kv.2
       | None => EvRenderFieldErrors kv.1 kv.2
       end.

(** The calls [errorsCallback] makes for an error object. *)
Definition routed (s : Settings) (errorObject : list (string * JsVal)) : list Event :=
  map (route_event s) errorObject.

(** The request the listener issues for the collected object [d]. *)
Definition request_for (s : Settings) (d : gmap string JsVal) : Request :=
  {| r_url := url s; r_type := type s; r_timeout := timeout s;
     r_contentType := "application/json"; r_dataType := "json";
     r_data := serializeData s d |}.

(** The calls of one run of the submit listener, in order. *)
Definition submit_events (s : Settings) (w : World) : list Event :=
  [EvStopPropagation]
  ++ collect_events s (formData w)
  ++ [EvSerializeData (prepareData s (collected s (formData w)))]
  ++ before_events s (namedElems w)
  ++ [EvAjax (request_for s (prepareData s (collected s (formData w))))].

(** ** The calls of the [error] callback *)

Section ErrorTrace.

Variable parseJSON : JsVal → option JsVal.

(** The calls of the branch guarded by [errors !== false]. *)
Definition json_events (s : Settings) (jqXHR : JqXHR) (statusText : string)
    (w : World) : list Event :=
  let errors := eval (getJSONObject parseJSON (responseText jqXHR)) w in
  if negb (is_false errors)
  then routed s (props_of errors) ++ [EvAfterError statusText 0 jqXHR]
  else [].

(** The calls of the branches on [jqXHR.status] and [statusText]. *)
Definition status_events (s : Settings) (jqXHR : JqXHR) (statusText : string)
    : list Event :=
  if Z.eqb (status jqXHR) 0
  then routed s (form_wide "Internet connection Lost")
       ++ [EvAfterError statusText 1 jqXHR]
  else routed s (form_wide statusText) ++ [EvAfterError statusText 2 jqXHR].

Definition console_events (jqXHR : JqXHR) (statusText : string) : list Event :=
  [EvConsoleLog (VStr ("AJAX Exception: " +:+ statusText));
   EvConsoleLog (VObj [("status", VNum (status jqXHR));
                       ("responseText", responseText jqXHR)])].

(** The calls of one run of the [error] callback, in order. *)
Definition error_events (s : Settings) (jqXHR : JqXHR) (statusText : string)
    (w : World) : list Event :=
  after_events s ++ json_events s jqXHR statusText w
  ++ status_events s jqXHR statusText ++ console_events jqXHR statusText.

End ErrorTrace.

(** ** Field values *)

(** The DOM-derived value of the field named [k]: the value of the last
    successful control of that name. *)
Fixpoint field_value (k : string) (fd : list (string * string)) : option string :=
  match fd with
  | [] => None
  | f :: rest =>
      match field_value k rest with
      | Some v => Some v
      | None => if String.eqb f.1 k then Some f.2 else None
      end
  end.

(** The entry of [settings.data] that [$.extend] copies for [k], the value a
    handler's [data()] contributes for [k], and the value the field loop
    leaves for [k]. *)
Definition static_value (s : Settings) (k : string) : option JsVal :=
  match data s !! k with
  | Some v => if is_undefined v then None else Some v
  | None => None
  end.

Definition handler_value (s : Settings) (k : string) : option JsVal :=
  fieldHandlers s !! k ≫= fh_data.

Definition dom_value (s : Settings) (fd : list (string * string)) (k : string)
    : option JsVal :=
  collect_fields (excludeFields s) fd ∅ !! k.

(** ** The order of calls *)

Definition is_collect (e : Event) : bool :=
  match e with
  | EvSerializeArray | EvData _ | EvPrepareData _ | EvSerializeData _ => true
  | _ => false
  end.

Definition is_clear (e : Event) : bool :=
  match e with
  | EvClearFormErrors | EvFieldClear _ | EvClearFieldErrors _ => true
  | _ => false
  end.

Definition is_beforeSubmit (e : Event) : bool :=
  match e with EvBeforeSubmit => true | _ => false end.

Definition is_ajax (e : Event) : bool :=
  match e with EvAjax _ => true | _ => false end.

Definition is_level0 (e : Event) : bool :=
  match e with EvAfterError _ 0 _ => true | _ => false end.

Definition none_of (P : Event → bool) (tr : list Event) : bool :=
  forallb (λ e, negb (P e)) tr.

(** Every [P] call of the trace is made before every [Q] call: no [Q] call
    is followed by a [P] call. *)
Fixpoint all_before (P Q : Event → bool) (tr : list Event) : bool :=
  match tr with
  | [] => true
  | e :: rest => (negb (Q e) || none_of P rest) && all_before P Q rest
  end.

(** ** Triggers and outstanding requests *)



(** ** String payloads *)

(** A member whose value is the string [kv.2]. *)
Definition string_member (kv : string * string) : string :=
  JSON.quote kv.1 +:+ ":" +:+ JSON.quote kv.2.

Definition put (acc : gmap string JsVal) (kv : string * string) : gmap string JsVal :=
  <[kv.1 := VStr kv.2]> acc.

(** The string members of a payload. *)
Definition string_entries (l : list (string * JsVal)) : list (string * string) :=
  omap (λ kv, match kv.2 with VStr t => Some (kv.1, t) | _ => None end) l.

(** ** Checks over every character *)

(** Checking a property of every character. *)
Definition forall_bool (f : bool → bool) : bool := f true && f false.

Definition forall_ascii (f : ascii → bool) : bool :=
  forall_bool (λ b0, forall_bool (λ b1, forall_bool (λ b2, forall_bool (λ b3,
  forall_bool (λ b4, forall_bool (λ b5, forall_bool (λ b6, forall_bool (λ b7,
    f (Ascii b0 b1 b2 b3 b4 b5 b6 b7))))))))).

(** [quote_char] writes for an ASCII character what QuoteJSONString writes
    for its code unit, and copies every other byte. *)
Definition quoted_as_unit (c : ascii) : bool :=
  if (N_of_ascii c <? 128)%N
  then String.eqb (JSON.quote_char c) (js_string (quote_unit (N_of_ascii c)))
  else String.eqb (JSON.quote_char c) (String c EmptyString).

(** A hexadecimal digit reads back as its value. *)
Definition digit_reads (c : ascii) : bool :=
  if (N_of_ascii c <? 16)%N
  then match JSON.hex_value (JSON.hex_digit (N_of_ascii c)) with
       | Some v => (v =? N_of_ascii c)%N
       | None => false
       end
  else true.

(** The text begins with the bytes of a trailing surrogate. *)
Definition starts_trail (s : string) : bool :=
  match s with
  | String d1 (String d2 (String d3 _)) =>
      JSON.is_ED d1 && JSON.is_trail2 d2 && JSON.is_cont d3
  | _ => false
  end.

(** ** Forms, options and replies used as examples *)

(** A form with a user name and a secret field; [secret] is excluded. *)
Definition login_fields : list (string * string) :=
  [("username", "abc"); ("secret", "x")].

Definition excluding_secret : Settings :=
  {| url := "/login"; type := "POST"; excludeFields := ["secret"]; data := ∅;
     timeout := 30000; disableSubmit := true; fieldHandlers := ∅;
     prepareData := λ dataObj, dataObj; serializeData := λ _, "" |}.

(** A form whose [token] has a [data] handler and a static entry. *)
Definition token_settings (static : JsVal) : Settings :=
  {| url := "/login"; type := "POST"; excludeFields := [];
     data := {[ "token" := static ]};
     timeout := 30000; disableSubmit := true;
     fieldHandlers := {[ "token" := {| fh_clear := false; fh_error := false;
                                       fh_data := Some (VStr "h") |} ]};
     prepareData := λ dataObj, dataObj; serializeData := λ _, "" |}.

(** A handler for [avatar], a name that is excluded and is no field of the form. *)
Definition avatar_handler : FieldHandler :=
  {| fh_clear := false; fh_error := false; fh_data := Some (VStr "blob") |}.

Definition avatar_settings : Settings :=
  {| url := "/profile"; type := "PUT"; excludeFields := ["avatar"]; data := ∅;
     timeout := 30000; disableSubmit := true;
     fieldHandlers := {[ "avatar" := avatar_handler ]};
     prepareData := λ dataObj, dataObj; serializeData := λ _, "" |}.

(** A form with one field and no handlers, under the default options. *)
Definition plain_settings : Settings :=
  default_settings "/login" "POST" (λ _, "payload").

Definition plain_page : World := idle [("username", "abc")] ["username"] ∅.

(** The same options with [disableSubmit] switched off. *)
Definition unguarded_settings : Settings :=
  {| url := "/login"; type := "POST"; excludeFields := []; data := ∅;
     timeout := 30000; disableSubmit := false; fieldHandlers := ∅;
     prepareData := λ dataObj, dataObj; serializeData := λ _, "payload" |}.

(** A parser that finds an object in every input. *)
Definition parse_anything (v : JsVal) : option JsVal :=
  Some (VObj [("field", VArr [VStr "message"])]).

(** The double quote, and the body of a reply that holds the errors of the
    field [password] as a JSON object. *)
Definition dq : string := String (ascii_of_nat 34) EmptyString.

Definition password_errors_text : string :=
  "{" +:+ dq +:+ "password" +:+ dq +:+ ":[" +:+ dq +:+ "too short" +:+ dq +:+ "]}".

Definition password_errors : JsVal := VObj [("password", VArr [VStr "too short"])].

Definition parse_password_errors (v : JsVal) : option JsVal :=
  match v with
  | VStr text => if String.eqb text password_errors_text
                 then Some password_errors else None
  | _ => None
  end.

Definition rejected_400 : JqXHR :=
  {| status := 400; responseText := VStr password_errors_text |}.

(** The body of a reply that holds a form-wide error as a JSON object. *)
Definition credentials_text : string :=
  "{" +:+ dq +:+ "__all__" +:+ dq +:+ ":[" +:+ dq +:+ "Invalid credentials"
      +:+ dq +:+ "]}".

Definition credentials_errors : JsVal :=
  VObj [("__all__", VArr [VStr "Invalid credentials"])].

Definition parse_credentials (v : JsVal) : option JsVal :=
  match v with
  | VStr text => if String.eqb text credentials_text
                 then Some credentials_errors else None
  | _ => None
  end.

Definition rejected_401 : JqXHR :=
  {| status := 401; responseText := VStr credentials_text |}.

Definition offline : JqXHR := {| status := 0; responseText := VUndef |}.

(** A payload with an empty value, with a value that holds a quote, a
    backslash and a line feed, with a price in euros (the code unit 0x20AC),
    with a character beyond the basic plane (a pair of surrogates) and with
    a surrogate on its own, under a key that is not ASCII either. *)
Definition awkward_payload : gmap string JsVal :=
  <["username" := VStr "abc"]>
    (<["password" := VStr EmptyString]>
       (<["note" := VStr ("say " +:+ dq +:+ "hi" +:+ dq +:+ " \ "
                          +:+ String (ascii_of_nat 10) "end")]>
          (<["price" := VStr (js_string [8364%N; 53%N])]>
             (<["smile" := VStr (js_string [55357%N; 56832%N])]>
                (<[js_string [241%N] := VStr (js_string [56832%N; 97%N])]> ∅))))).

(** * Further vocabulary *)

(** ** Initialisation: the defaults and [$.extend(settings, options)] *)

(** The [options] argument of [restForm]; [None] is an option that is absent
    or [undefined], which [$.extend] leaves at its default either way. *)
Record Options : Type := {
  o_url : option string;
  o_type : option string;
  o_excludeFields : option (list string);
  o_data : option (gmap string JsVal);
  o_timeout : option Z;
  o_disableSubmit : option bool;
  o_fieldHandlers : option (gmap string FieldHandler);
  o_prepareData : option (gmap string JsVal → gmap string JsVal);
  o_serializeData : option (gmap string JsVal → string)
}.

Definition no_options : Options :=
  {| o_url := None; o_type := None; o_excludeFields := None; o_data := None;
     o_timeout := None; o_disableSubmit := None; o_fieldHandlers := None;
     o_prepareData := None; o_serializeData := None |}.

(** The settings of [$(form).restForm(options)]; [action] and [method] are
    the form's attributes. *)
Definition restForm (action method : string) (options : Options) : Settings :=
  {| url := default action (o_url options);
     type := default method (o_type options);
     excludeFields := default [] (o_excludeFields options);
     data := default ∅ (o_data options);
     timeout := default 30000%Z (o_timeout options);
     disableSubmit := default true (o_disableSubmit options);
     fieldHandlers := default ∅ (o_fieldHandlers options);
     prepareData := default (λ dataObj, dataObj) (o_prepareData options);
     serializeData := default JSON.stringify (o_serializeData options) |}.

(** ** Handlers that contribute data *)

Definition keys_with_data (l : list (string * FieldHandler)) : list string :=
  omap (λ kv, match fh_data kv.2 with Some _ => Some kv.1 | None => None end) l.

(** ** The calls and the effect of one trigger *)

Section StepTrace.

Variable parseJSON : JsVal → option JsVal.

Definition complete_events (s : Settings) (r : Response) (w : World) : list Event :=
  match r with
  | Success resp => after_events s ++ [EvSuccess resp]
  | Failure jqXHR statusText => error_events parseJSON s jqXHR statusText w
  end.

Definition step_events (s : Settings) (t : Trigger) (w : World) : list Event :=
  match t with
  | ClickSubmit => if submitDisabled w then [] else submit_events s w
  | SubmitEvent => submit_events s w
  | Completion r =>
      match inflight w with [] => [] | _ :: _ => complete_events s r w end
  | TimerFires => match timers w with O => [] | S _ => [EvEnableSubmit] end
  end.

(** The [disabled] attribute, the pending timers and the outstanding
    requests after one trigger. *)
Definition step_disabled (s : Settings) (t : Trigger) (w : World) : bool :=
  match t with
  | ClickSubmit => submitDisabled w || disableSubmit s
  | SubmitEvent => disableSubmit s || submitDisabled w
  | Completion _ => submitDisabled w
  | TimerFires => match timers w with O => submitDisabled w | S _ => false end
  end.

Definition step_timers (s : Settings) (t : Trigger) (w : World) : nat :=
  match t with
  | Completion _ =>
      match inflight w with
      | [] => timers w
      | _ :: _ => if disableSubmit s then S (timers w) else timers w
      end
  | TimerFires => pred (timers w)
  | _ => timers w
  end.

Definition step_inflight (s : Settings) (t : Trigger) (w : World) : list Request :=
  let req := request_for s (prepareData s (collected s (formData w))) in
  match t with
  | ClickSubmit => if submitDisabled w then inflight w else inflight w ++ [req]
  | SubmitEvent => inflight w ++ [req]
  | Completion _ => tail (inflight w)
  | TimerFires => inflight w
  end.

(** The calls of a run of triggers. *)
Fixpoint run_events (s : Settings) (ts : list Trigger) (w : World) : list Event :=
  match ts with
  | [] => []
  | t :: ts' =>
      step_events s t w ++ run_events s ts' (exec (step parseJSON s t) w)
  end.

End StepTrace.

(** The number of calls of a kind in a trace. *)
Definition count_events (P : Event → bool) (tr : list Event) : nat :=
  length (filter (λ e, P e = true) tr).

Definition is_afterSubmit (e : Event) : bool :=
  match e with EvAfterSubmit => true | _ => false end.

(** The calls that touch the submit controls. *)
Definition is_control (e : Event) : bool :=
  match e with
  | EvDisableSubmit | EvEnableSubmit | EvSetTimeout _ => true
  | _ => false
  end.

(** A kind of call that neither callback of the listener nor the listener
    itself makes, except where the three flags say so. *)
Record quiet (P : Event → bool) (ajax after control : bool) : Prop := {
  quiet_stop : P EvStopPropagation = false;
  quiet_array : P EvSerializeArray = false;
  quiet_data : ∀ k, P (EvData k) = false;
  quiet_prepare : ∀ d, P (EvPrepareData d) = false;
  quiet_serialize : ∀ d, P (EvSerializeData d) = false;
  quiet_clear_form : P EvClearFormErrors = false;
  quiet_clear : ∀ n, P (EvFieldClear n) = false;
  quiet_clear_field : ∀ n, P (EvClearFieldErrors n) = false;
  quiet_before : P EvBeforeSubmit = false;
  quiet_success : ∀ r, P (EvSuccess r) = false;
  quiet_render : ∀ v, P (EvRenderFormErrors v) = false;
  quiet_error : ∀ k v, P (EvFieldError k v) = false;
  quiet_render_field : ∀ k v, P (EvRenderFieldErrors k v) = false;
  quiet_after_error : ∀ t l j, P (EvAfterError t l j) = false;
  quiet_log : ∀ m, P (EvConsoleLog m) = false;
  quiet_ajax : ∀ r, P (EvAjax r) = ajax;
  quiet_after : P EvAfterSubmit = after;
  quiet_disable : P EvDisableSubmit = control;
  quiet_enable : P EvEnableSubmit = control;
  quiet_timeout : ∀ n, P (EvSetTimeout n) = control
}.

(** ** Further forms and options used as examples *)

(** A form with two check boxes of the same name. *)
Definition colour_fields : list (string * string) :=
  [("colour", "red"); ("size", "L"); ("colour", "blue")].

(** A handler with a [data] function and no [clear]; one with a [clear] and
    an [error] function. *)
Definition upload_handler : FieldHandler :=
  {| fh_clear := false; fh_error := false; fh_data := Some (VStr "file-7") |}.

Definition fancy_handler : FieldHandler :=
  {| fh_clear := true; fh_error := true; fh_data := None |}.

Definition handled_settings : Settings :=
  {| url := "/profile"; type := "PUT"; excludeFields := []; data := ∅;
     timeout := 30000; disableSubmit := true;
     fieldHandlers := <["upload" := upload_handler]> {[ "email" := fancy_handler ]};
     prepareData := λ dataObj, dataObj; serializeData := JSON.stringify |}.

(** A form whose e-mail field is named [user[email]], a name the default
    clear cannot select, and has a handler with its own [clear]. *)
Definition bracket_settings : Settings :=
  {| url := "/profile"; type := "PUT"; excludeFields := []; data := ∅;
     timeout := 30000; disableSubmit := true;
     fieldHandlers := {[ "user[email]" := fancy_handler ]};
     prepareData := λ dataObj, dataObj; serializeData := JSON.stringify |}.

Definition bracket_page : World :=
  idle [("user[email]", "a@b.c")] ["user[email]"; "save"] ∅.

(** An error object with a form-wide entry and an entry for two fields. *)
Definition mixed_errors : list (string * JsVal) :=
  [("email", VArr [VStr "taken"]); ("__all__", VArr [VStr "Try again"]);
   ("upload", VArr [VStr "too large"])].

(** A page whose form holds a radio group, an e-mail field and a button. *)
Definition profile_page : World :=
  idle [("plan", "pro"); ("email", "a@b.c")] ["plan"; "plan"; "email"; "save"] ∅.


Definition stale_global : gmap string JsVal :=
  {[ "jqXHR" := VObj [("status", VNum 422);
                      ("responseText", VStr password_errors_text)] ]}.

Definition stale_page : World := idle [("username", "abc")] ["username"] stale_global.

(** * Properties *)

(** ** Running actions *)

Lemma upd_same w : upd w (submitDisabled w) (timers w) (inflight w) (trace w) = w.
Proof. by destruct w. Qed.

Lemma bind_run {A B} (m : Act A) (k : A → Act B) w :
  (m ≫= k) w = k (m w).1 (m w).2.
Proof. unfold mbind, Act_bind. by destruct (m w). Qed.

Lemma bind_eq {A B} (m : Act A) (k : A → Act B) w a w' :
  m w = (a, w') → (m ≫= k) w = k a w'.
Proof. intros H. by rewrite bind_run, H. Qed.

Lemma emit_run e w :
  emit e w = (tt, upd w (submitDisabled w) (timers w) (inflight w) (trace w ++ [e])).
Proof. reflexivity. Qed.

Lemma for_each_emit {A} (f : A → Act unit) (g : A → Event) (l : list A) w :
  (∀ x w', f x w' = emit (g x) w') →
  for_each l f w =
    (tt, upd w (submitDisabled w) (timers w) (inflight w) (trace w ++ map g l)).
Proof.
  intros Hf. revert w. induction l as [|x l IH]; intros w; simpl.
  - by rewrite app_nil_r, upd_same.
  - rewrite bind_run, Hf, emit_run; simpl. rewrite IH; simpl.
    unfold upd; simpl. by rewrite <- app_assoc.
Qed.

(** Run the binds and the [emit]s of the goal, then compare the worlds. *)
Ltac run_acts :=
  repeat (progress (rewrite ?bind_run, ?emit_run;
                    unfold gets, modify, skip, mret, Act_ret;
                    cbn beta iota delta [fst snd])).

Ltac same_world :=
  unfold upd, set_trace, set_submitDisabled, set_timers, set_inflight; simpl;
  repeat (progress (rewrite <- ?app_assoc; simpl)); try reflexivity.

Lemma emitted_app {A} (m : Act A) w evs :
  trace (exec m w) = trace w ++ evs → emitted m w = evs.
Proof. intros H. unfold emitted. rewrite H. apply drop_app_length. Qed.

(** ** Field collection *)

(** [$.inArray] answers [-1] exactly for the names that are not listed. *)
Lemma inArray_not_listed x l : inArray x l = (-1)%Z ↔ x ∉ l.
Proof.
  unfold inArray.
  enough (∀ i, (0 ≤ i)%Z → inArray_from i x l = (-1)%Z ↔ x ∉ l) as H
    by (apply H; lia).
  induction l as [|y l IH]; intros i Hi; simpl.
  - split; [intros _; apply not_elem_of_nil | done].
  - destruct (String.eqb_spec y x) as [->|Hne].
    + split; [lia | intros []; left].
    + rewrite IH by lia. rewrite not_elem_of_cons.
      split; [by intros ?; split; [congruence|] | by intros [_ ?]].
Qed.

(** The guard lets a field through exactly when the exclusion list is
    empty, whatever the field's name. *)
Lemma field_included_iff excl name : field_included excl name = true ↔ excl = [].
Proof.
  unfold field_included. destruct excl as [|y excl]; simpl; [done|].
  split; [done | discriminate].
Qed.

Lemma collect_fields_excluding excl fd d :
  excl ≠ [] → collect_fields excl fd d = d.
Proof.
  intros Hne. unfold collect_fields. revert d.
  induction fd as [|f fd IH]; intros d; simpl; [done|].
  destruct (field_included excl f.1) eqn:Hinc; [|apply IH].
  apply field_included_iff in Hinc. done.
Qed.

Lemma assign_field_lookup name value d k :
  assign_field name value d !! k =
    if String.eqb name k && negb (String.eqb k "__proto__")
    then Some (VStr value) else d !! k.
Proof.
  unfold assign_field.
  destruct (String.eqb_spec name k) as [->|Hne]; simpl.
  - destruct (String.eqb k "__proto__"); [done | by rewrite lookup_insert_eq].
  - destruct (String.eqb name "__proto__"); [done | by rewrite lookup_insert_ne].
Qed.

(** The field loop leaves the last value of each name, and nothing under
    the name [__proto__]. *)
Lemma collect_fields_lookup fd d k :
  collect_fields [] fd d !! k =
    if String.eqb k "__proto__" then d !! k
    else match field_value k fd with Some v => Some (VStr v) | None => d !! k end.
Proof.
  unfold collect_fields. revert d.
  induction fd as [|f fd IH]; intros d; simpl.
  - by destruct (String.eqb k "__proto__").
  - rewrite IH, assign_field_lookup.
    destruct (String.eqb k "__proto__"); simpl; [by rewrite andb_false_r|].
    rewrite andb_true_r. destruct (field_value k fd); [done|].
    by destruct (String.eqb f.1 k).
Qed.

Lemma overlay_handlers_lookup hs d k :
  overlay_handlers hs d !! k =
    match hs !! k ≫= fh_data with Some r => Some r | None => d !! k end.
Proof.
  unfold overlay_handlers.
  apply (map_fold_weak_ind (λ r m,
    r !! k = match m !! k ≫= fh_data with Some r => Some r | None => d !! k end)).
  - by rewrite lookup_empty.
  - intros i x m r Hi IH. destruct (decide (i = k)) as [->|Hne].
    + rewrite lookup_insert_eq; simpl. rewrite Hi in IH; simpl in IH.
      destruct (fh_data x); [by rewrite lookup_insert_eq | done].
    + rewrite (lookup_insert_ne m) by done.
      destruct (fh_data x); [by rewrite lookup_insert_ne | done].
Qed.

Lemma extend_lookup target options k :
  extend target options !! k =
    match options !! k with
    | Some v => if is_undefined v then target !! k else Some v
    | None => target !! k
    end.
Proof.
  unfold extend.
  apply (map_fold_weak_ind (λ r m,
    r !! k = match m !! k with
             | Some v => if is_undefined v then target !! k else Some v
             | None => target !! k
             end)).
  - by rewrite lookup_empty.
  - intros i x m r Hi IH. destruct (decide (i = k)) as [->|Hne].
    + rewrite lookup_insert_eq. rewrite Hi in IH.
      destruct (is_undefined x); [done | by rewrite lookup_insert_eq].
    + rewrite (lookup_insert_ne m) by done.
      destruct (is_undefined x); [done | by rewrite lookup_insert_ne].
Qed.

(** What a run of [getFormData] returns and what it appends to the trace. *)
Lemma getFormData_run s w :
  getFormData s w =
    (prepareData s (collected s (formData w)),
     upd w (submitDisabled w) (timers w) (inflight w)
       (trace w ++ collect_events s (formData w))).
Proof.
  unfold getFormData, collect_events. rewrite !bind_run. simpl.
  unfold collected. f_equal. unfold upd; simpl. f_equal.
  by rewrite <- !app_assoc.
Qed.

Lemma collected_lookup s fd k :
  collected s fd !! k =
    match static_value s k with
    | Some v => Some v
    | None => match handler_value s k with
              | Some r => Some r
              | None => dom_value s fd k
              end
    end.
Proof.
  unfold collected, static_value, handler_value, dom_value.
  rewrite extend_lookup, overlay_handlers_lookup.
  destruct (data s !! k) as [v|]; [destruct (is_undefined v)|]; done.
Qed.

(** With no exclusions, no handlers and no static data, the payload is the
    fields of the form, an empty value included. *)
Example getFormData_login_form :
  eval (getFormData plain_settings)
       (idle [("username", "abc"); ("password", "")] ["username"; "password"] ∅)
  = <["username" := VStr "abc"]> (<["password" := VStr ""]> ∅).
Proof. vm_compute. reflexivity. Qed.

(** C1 (the code departs from the claim).  The claim: a field's DOM-derived
    value is collected if and only if its name is not in [excludeFields].
    The code: with the exclusion list [["secret"]], the field [username],
    which is not listed, is left out of the payload all the same, since the
    guard also asks for the list to be empty. *)
Theorem getFormData_drops_unlisted_field :
  inArray "username" (excludeFields excluding_secret) = (-1)%Z ∧
  field_value "username" login_fields = Some "abc" ∧
  eval (getFormData excluding_secret) (idle login_fields ["username"; "secret"] ∅)
    !! "username" = None.
Proof. repeat split; vm_compute; reflexivity. Qed.

(** C7, counterexample: an entry of [settings.data] whose value is
    [undefined] does not override the handler's value, because [$.extend]
    skips such entries. *)
Lemma static_undefined_does_not_override :
  data (token_settings VUndef) !! "token" = Some VUndef ∧
  eval (getFormData (token_settings VUndef)) (idle [("token", "dom")] ["token"] ∅)
    !! "token" = Some (VStr "h").
Proof. split; vm_compute; reflexivity. Qed.

(** C7 (amended).  [getFormData] returns [prepareData] of the collected
    object, and in that object the value under every name [k] follows the
    precedence static > handler > DOM: the entry of [settings.data] for [k],
    when its value is not [undefined]; otherwise the result of the [data()]
    of the handler of [k]; otherwise the value the field loop stored. *)
Theorem getFormData_precedence s w k :
  eval (getFormData s) w = prepareData s (collected s (formData w)) ∧
  collected s (formData w) !! k =
    match static_value s k with
    | Some v => Some v
    | None => match handler_value s k with
              | Some r => Some r
              | None => dom_value s (formData w) k
              end
    end.
Proof.
  split; [|apply collected_lookup].
  unfold eval. by rewrite getFormData_run.
Qed.

(** C10, counterexample: a key with a [data] handler and a static entry is
    mapped to the static value, not to the result of [data()]. *)
Lemma handler_data_overridden_by_static :
  handler_value (token_settings (VStr "s")) "token" = Some (VStr "h") ∧
  eval (getFormData (token_settings (VStr "s"))) (idle [] [] ∅)
    !! "token" = Some (VStr "s").
Proof. split; vm_compute; reflexivity. Qed.

(** C10 (amended).  For every key [k] of [fieldHandlers] whose handler has a
    [data] function, and for which [settings.data] holds no entry with a
    value other than [undefined], the object [getFormData] hands to
    [prepareData] maps [k] to the result of [data()], whatever the fields of
    the form and whatever [excludeFields] lists. *)
Theorem handler_data_in_payload s w k h r :
  fieldHandlers s !! k = Some h →
  fh_data h = Some r →
  static_value s k = None →
  eval (getFormData s) w = prepareData s (collected s (formData w)) ∧
  collected s (formData w) !! k = Some r.
Proof.
  intros Hh Hr Hs. split; [unfold eval; by rewrite getFormData_run|].
  rewrite collected_lookup, Hs. unfold handler_value. by rewrite Hh; simpl; rewrite Hr.
Qed.

Lemma handler_data_in_payload_witness :
  let w := idle [("nick", "bob")] ["nick"] ∅ in
  inArray "avatar" (excludeFields avatar_settings) = 0%Z ∧
  field_value "avatar" (formData w) = None ∧
  eval (getFormData avatar_settings) w
    = prepareData avatar_settings (collected avatar_settings (formData w)) ∧
  collected avatar_settings (formData w) !! "avatar" = Some (VStr "blob").
Proof.
  intros w. split; [reflexivity|]. split; [reflexivity|].
  apply (handler_data_in_payload avatar_settings w "avatar" avatar_handler
           (VStr "blob")); reflexivity.
Defined.

(** ** The callbacks and the submit listener, as traces *)

Lemma clear_field_run s name w : clear_field s name w = emit (clear_event s name) w.
Proof.
  unfold clear_field, clear_event.
  destruct (fieldHandlers s !! name) as [h|]; [destruct (fh_clear h)|]; done.
Qed.

Lemma route_error_run s kv w : route_error s kv w = emit (route_event s kv) w.
Proof.
  unfold route_error, route_event. destruct (String.eqb kv.1 "__all__"); [done|].
  destruct (fieldHandlers s !! kv.1) as [h|]; [destruct (fh_error h)|]; done.
Qed.

Lemma errorsCallback_run s errorObject w :
  errorsCallback s errorObject w =
    (tt, upd w (submitDisabled w) (timers w) (inflight w)
           (trace w ++ routed s errorObject)).
Proof. apply for_each_emit, route_error_run. Qed.

Lemma beforeSubmitCallback_run s w :
  beforeSubmitCallback s w =
    (tt, upd w (disableSubmit s || submitDisabled w) (timers w) (inflight w)
           (trace w ++ before_events s (namedElems w))).
Proof.
  unfold beforeSubmitCallback, before_events, disable_submit, gets, modify.
  destruct (disableSubmit s); run_acts;
    rewrite (for_each_emit _ (clear_event s)) by apply clear_field_run;
    run_acts; same_world.
Qed.

Lemma afterSubmitCallback_run s w :
  afterSubmitCallback s w =
    (tt, upd w (submitDisabled w)
           (if disableSubmit s then S (timers w) else timers w) (inflight w)
           (trace w ++ after_events s)).
Proof.
  unfold afterSubmitCallback, after_events, set_timeout, modify.
  destruct (disableSubmit s); run_acts; same_world.
Qed.

Lemma submit_handler_run s w :
  submit_handler s w =
    (false,
     upd w (disableSubmit s || submitDisabled w) (timers w)
       (inflight w ++ [request_for s (prepareData s (collected s (formData w)))])
       (trace w ++ submit_events s w)).
Proof.
  unfold submit_handler, submit_events, ajax, request_for, modify.
  run_acts. rewrite getFormData_run. run_acts.
  rewrite beforeSubmitCallback_run. run_acts. same_world.
Qed.

Section TransportProperties.

Variable parseJSON : JsVal → option JsVal.

Lemma getJSONObject_unbound jsonString w :
  globals w !! "jqXHR" = None →
  getJSONObject parseJSON jsonString w = (VBool false, w).
Proof.
  intros Hg. unfold getJSONObject. rewrite bind_run; simpl. by rewrite Hg.
Qed.

(** [getJSONObject] reads the global object only and changes nothing. *)
Lemma getJSONObject_upd jsonString w d t i tr :
  getJSONObject parseJSON jsonString (upd w d t i tr) =
    (eval (getJSONObject parseJSON jsonString) w, upd w d t i tr).
Proof. unfold getJSONObject, eval. by run_acts. Qed.

Lemma json_branch_run s jqXHR statusText errors w :
  (if negb (is_false errors)
   then errorsCallback s (props_of errors) ;; emit (EvAfterError statusText 0 jqXHR)
   else skip) w =
    (tt, upd w (submitDisabled w) (timers w) (inflight w)
           (trace w ++ (if negb (is_false errors)
                        then routed s (props_of errors)
                             ++ [EvAfterError statusText 0 jqXHR]
                        else []))).
Proof.
  destruct (negb (is_false errors)).
  - erewrite bind_eq by apply errorsCallback_run. rewrite emit_run. same_world.
  - by rewrite app_nil_r, upd_same.
Qed.

Lemma status_branch_run s jqXHR statusText w :
  (if Z.eqb (status jqXHR) 0
   then errorsCallback s (form_wide "Internet connection Lost") ;;
        emit (EvAfterError statusText 1 jqXHR)
   else errorsCallback s (form_wide statusText) ;;
        emit (EvAfterError statusText 2 jqXHR)) w =
    (tt, upd w (submitDisabled w) (timers w) (inflight w)
           (trace w ++ status_events s jqXHR statusText)).
Proof.
  unfold status_events. destruct (Z.eqb (status jqXHR) 0);
    (erewrite bind_eq by apply errorsCallback_run); rewrite emit_run; same_world.
Qed.

Lemma on_error_run s jqXHR statusText w :
  on_error parseJSON s jqXHR statusText w =
    (tt, upd w (submitDisabled w)
           (if disableSubmit s then S (timers w) else timers w) (inflight w)
           (trace w ++ error_events parseJSON s jqXHR statusText w)).
Proof.
  unfold on_error, error_events, json_events, console_events.
  erewrite bind_eq by apply afterSubmitCallback_run.
  erewrite bind_eq by apply getJSONObject_upd.
  erewrite bind_eq by apply json_branch_run.
  erewrite bind_eq by apply status_branch_run.
  erewrite bind_eq by apply emit_run. rewrite emit_run. same_world.
Qed.

Lemma json_events_unbound s jqXHR statusText w :
  globals w !! "jqXHR" = None → json_events parseJSON s jqXHR statusText w = [].
Proof.
  intros Hg. unfold json_events, eval. by rewrite getJSONObject_unbound.
Qed.

Lemma routed_form_wide s msg :
  routed s (form_wide msg) = [EvRenderFormErrors (VArr [VStr msg])].
Proof. reflexivity. Qed.

Lemma on_success_run s resp w :
  on_success s resp w =
    (tt, upd w (submitDisabled w)
           (if disableSubmit s then S (timers w) else timers w) (inflight w)
           (trace w ++ after_events s ++ [EvSuccess resp])).
Proof.
  unfold on_success. run_acts. rewrite afterSubmitCallback_run.
  run_acts. same_world.
Qed.

End TransportProperties.

(** ** The order of the steps of a submission cycle *)

Lemma none_of_app P l1 l2 : none_of P (l1 ++ l2) = none_of P l1 && none_of P l2.
Proof. apply forallb_app. Qed.

Lemma all_before_none P Q tr : none_of P tr = true → all_before P Q tr = true.
Proof.
  induction tr as [|e tr IH]; simpl; [done|].
  intros [_ Htr]%andb_true_iff. rewrite Htr, orb_true_r. by apply IH.
Qed.

Lemma all_before_split P Q l1 l2 :
  none_of Q l1 = true → none_of P l2 = true → all_before P Q (l1 ++ l2) = true.
Proof.
  intros H1 H2. induction l1 as [|e l1 IH]; simpl.
  - by apply all_before_none.
  - simpl in H1. apply andb_true_iff in H1 as [He H1].
    rewrite He; simpl. by apply IH.
Qed.

Lemma none_of_data_calls P hs :
  (∀ k, P (EvData k) = false) → none_of P (data_calls hs) = true.
Proof.
  intros HP. unfold data_calls.
  apply (map_fold_weak_ind (λ r _, none_of P r = true)); [done|].
  intros i x m r _ IH. destruct (fh_data x); [|done].
  by rewrite none_of_app, IH; simpl; rewrite HP.
Qed.

Lemma none_of_clears P s names :
  (∀ n, P (EvFieldClear n) = false) → (∀ n, P (EvClearFieldErrors n) = false) →
  none_of P (map (clear_event s) names) = true.
Proof.
  intros H1 H2. induction names as [|n names IH]; simpl; [done|].
  rewrite IH, andb_true_r. unfold clear_event.
  destruct (fieldHandlers s !! n) as [h|]; [destruct (fh_clear h)|];
    by rewrite ?H1, ?H2.
Qed.

(** The [data()] calls are those of the handlers that have a [data]
    function, each once. *)
Lemma data_calls_keys hs :
  data_calls hs = EvData <$> reverse (keys_with_data (map_to_list hs)).
Proof.
  unfold data_calls. rewrite map_fold_foldr.
  induction (map_to_list hs) as [|[k h] l IH]; [done|]. simpl.
  unfold keys_with_data in *. simpl. destruct (fh_data h); simpl; [|done].
  by rewrite IH, reverse_cons, fmap_app.
Qed.

Lemma keys_with_data_elem k (hs : gmap string FieldHandler) :
  k ∈ keys_with_data (map_to_list hs) ↔ is_Some (hs !! k ≫= fh_data).
Proof.
  unfold keys_with_data. rewrite list_elem_of_omap. split.
  - intros ([k' h] & Hin & Hk). apply elem_of_map_to_list in Hin. simpl in Hk.
    destruct (fh_data h) as [r|] eqn:Hr; [|done]. simplify_eq.
    rewrite Hin. simpl. rewrite Hr. eauto.
  - intros [r Hr]. destruct (hs !! k) as [h|] eqn:Hh; [|done]. simpl in Hr.
    exists (k, h). split; [by apply elem_of_map_to_list|]. simpl. by rewrite Hr.
Qed.

Lemma keys_with_data_NoDup (l : list (string * FieldHandler)) :
  NoDup l.*1 → NoDup (keys_with_data l).
Proof.
  unfold keys_with_data. induction l as [|[k h] l IH]; simpl; [constructor|].
  intros [Hk Hl]%NoDup_cons. destruct (fh_data h); simpl; [|by apply IH].
  apply NoDup_cons. split; [|by apply IH].
  intros Hin. apply Hk. apply list_elem_of_omap in Hin as ([k' h'] & Hin & Heq).
  simpl in Heq. destruct (fh_data h'); [|done]. simplify_eq.
  apply list_elem_of_fmap. by exists (k, h').
Qed.

Lemma submit_handler_emitted s w : emitted (submit_handler s) w = submit_events s w.
Proof.
  apply emitted_app. unfold exec. by rewrite submit_handler_run.
Qed.

(** C5, counterexample: in the cycle of a one-field form the fields are
    read, and the payload is serialized, before the errors are cleared and
    before the [beforeSubmit] hook runs. *)
Lemma collection_precedes_beforeSubmit :
  emitted (submit_handler plain_settings) plain_page =
    [EvStopPropagation; EvSerializeArray;
     EvPrepareData {[ "username" := VStr "abc" ]};
     EvSerializeData {[ "username" := VStr "abc" ]};
     EvDisableSubmit; EvClearFormErrors; EvClearFieldErrors "username";
     EvBeforeSubmit;
     EvAjax (request_for plain_settings {[ "username" := VStr "abc" ]})] ∧
  all_before is_beforeSubmit is_collect
    (emitted (submit_handler plain_settings) plain_page) = false.
Proof. split; vm_compute; reflexivity. Qed.

(** C5 (amended).  In every submission cycle on a form each of whose named
    elements has a handler with its own [clear], or a name that is a plain
    identifier (on which the default [clearFieldErrors] returns; on a name
    such as [user[email]] it throws, and the listener stops before the hook
    and the request), the calls are, in this order: the collection of the
    field values ([serializeArray], then the [data()] of every handler that
    has one, each once, then [prepareData]) and their serialization; then,
    after the submit controls are disabled when [disableSubmit] is set, the
    clearing of the form-wide errors and of each named element's errors (by
    its handler's own [clear] or by the default clear); then the
    [beforeSubmit] hook; then the one request, which carries the payload
    serialized at the start. *)
Theorem submit_cycle_order s w :
  forallb (clear_returns s) (namedElems w) = true →
  let tr := emitted (submit_handler s) w in
  let d := prepareData s (collected s (formData w)) in
  (∃ keys,
     NoDup keys ∧
     (∀ k, k ∈ keys ↔ is_Some (handler_value s k)) ∧
     tr = [EvStopPropagation; EvSerializeArray] ++ (EvData <$> keys)
          ++ [EvPrepareData (collected s (formData w)); EvSerializeData d]
          ++ before_events s (namedElems w)
          ++ [EvAjax (request_for s d)]) ∧
  all_before is_collect is_clear tr = true ∧
  all_before is_clear is_beforeSubmit tr = true ∧
  all_before is_beforeSubmit is_ajax tr = true.
Proof.
  intros _ tr d. subst tr d. rewrite submit_handler_emitted.
  unfold submit_events, collect_events, before_events.
  set (d := prepareData s (collected s (formData w))).
  set (dis := if disableSubmit s then [EvDisableSubmit] else []).
  assert (Hdis : ∀ P, P EvDisableSubmit = false → none_of P dis = true).
  { intros P HP. unfold dis. destruct (disableSubmit s); simpl; by rewrite ?HP. }
  split; [|split; [|split]].
  - exists (reverse (keys_with_data (map_to_list (fieldHandlers s)))).
    split; [|split].
    + rewrite reverse_Permutation.
      apply keys_with_data_NoDup, NoDup_fst_map_to_list.
    + intros k. rewrite elem_of_reverse. apply keys_with_data_elem.
    + rewrite data_calls_keys.
      repeat (progress (simpl; rewrite <- ?app_assoc)); reflexivity.
  - replace (_ ++ _) with
      (([EvStopPropagation; EvSerializeArray] ++ data_calls (fieldHandlers s)
        ++ [EvPrepareData (collected s (formData w)); EvSerializeData d] ++ dis)
       ++ ([EvClearFormErrors] ++ map (clear_event s) (namedElems w)
           ++ [EvBeforeSubmit; EvAjax (request_for s d)]))
      by (repeat (progress (simpl; rewrite <- ?app_assoc)); reflexivity).
    apply all_before_split.
    + by rewrite !none_of_app, none_of_data_calls, Hdis.
    + by rewrite !none_of_app, none_of_clears.
  - replace (_ ++ _) with
      (([EvStopPropagation; EvSerializeArray] ++ data_calls (fieldHandlers s)
        ++ [EvPrepareData (collected s (formData w)); EvSerializeData d] ++ dis
        ++ [EvClearFormErrors] ++ map (clear_event s) (namedElems w))
       ++ [EvBeforeSubmit; EvAjax (request_for s d)])
      by (repeat (progress (simpl; rewrite <- ?app_assoc)); reflexivity).
    apply all_before_split; [|done].
    by rewrite !none_of_app, none_of_data_calls, Hdis, none_of_clears.
  - replace (_ ++ _) with
      (([EvStopPropagation; EvSerializeArray] ++ data_calls (fieldHandlers s)
        ++ [EvPrepareData (collected s (formData w)); EvSerializeData d] ++ dis
        ++ [EvClearFormErrors] ++ map (clear_event s) (namedElems w)
        ++ [EvBeforeSubmit])
       ++ [EvAjax (request_for s d)])
      by (repeat (progress (simpl; rewrite <- ?app_assoc)); reflexivity).
    apply all_before_split; [|done].
    by rewrite !none_of_app, none_of_data_calls, Hdis, none_of_clears.
Qed.

Lemma submit_cycle_order_witness :
  selector_safe "user[email]" = false ∧
  forallb (clear_returns bracket_settings) (namedElems bracket_page) = true ∧
  all_before is_clear is_beforeSubmit
    (emitted (submit_handler bracket_settings) bracket_page) = true ∧
  all_before is_beforeSubmit is_ajax
    (emitted (submit_handler bracket_settings) bracket_page) = true.
Proof.
  split; [reflexivity|]. split; [reflexivity|].
  pose proof (submit_cycle_order bracket_settings bracket_page eq_refl) as H.
  cbv zeta in H. destruct H as (_ & _ & H1 & H2). split; [exact H1 | exact H2].
Defined.

(** ** The [error] callback *)

Lemma on_error_emitted parseJSON s jqXHR statusText w :
  emitted (on_error parseJSON s jqXHR statusText) w =
    error_events parseJSON s jqXHR statusText w.
Proof.
  apply emitted_app. unfold exec. by rewrite on_error_run.
Qed.

(** C9.  When no global variable [jqXHR] exists, [getJSONObject] returns
    [false] for every argument (and every behaviour of [$.parseJSON]), and
    so the [error] callback never takes the branch guarded by
    [errors !== false]: it makes none of that branch's calls, and none of
    its calls is an [afterError] of level 0. *)
Theorem getJSONObject_returns_false parseJSON w :
  globals w !! "jqXHR" = None →
  (∀ jsonString, eval (getJSONObject parseJSON jsonString) w = VBool false) ∧
  (∀ s jqXHR statusText,
     json_events parseJSON s jqXHR statusText w = [] ∧
     emitted (on_error parseJSON s jqXHR statusText) w =
       after_events s ++ status_events s jqXHR statusText
       ++ console_events jqXHR statusText ∧
     existsb is_level0 (emitted (on_error parseJSON s jqXHR statusText) w) = false).
Proof.
  intros Hg. split.
  - intros jsonString. unfold eval. by rewrite getJSONObject_unbound.
  - intros s jqXHR statusText.
    rewrite on_error_emitted. unfold error_events.
    rewrite json_events_unbound by done. repeat split.
    unfold after_events, status_events. rewrite !routed_form_wide.
    destruct (disableSubmit s); destruct (Z.eqb (status jqXHR) 0); reflexivity.
Qed.

Lemma getJSONObject_returns_false_witness :
  globals plain_page !! "jqXHR" = None ∧
  parse_anything (VStr "{}") = Some (VObj [("field", VArr [VStr "message"])]) ∧
  eval (getJSONObject parse_anything (VStr "{}")) plain_page = VBool false.
Proof.
  split; [reflexivity|]. split; [reflexivity|].
  apply (getJSONObject_returns_false parse_anything plain_page). reflexivity.
Defined.

(** C2 (the code departs from the claim).  The claim: a failure whose body
    is a JSON object is reported to [afterError] with level 0.  The code: for
    a reply of status 400 whose body parses as the object
    [{password: [too short]}], [afterError] is called once, with level 2,
    as for a transport failure. *)
Theorem structured_failure_reported_at_level_2 :
  parse_password_errors (responseText rejected_400) = Some password_errors ∧
  emitted (on_error parse_password_errors plain_settings rejected_400 "error")
          plain_page =
    [EvSetTimeout 200; EvAfterSubmit;
     EvRenderFormErrors (VArr [VStr "error"]);
     EvAfterError "error" 2 rejected_400;
     EvConsoleLog (VStr "AJAX Exception: error");
     EvConsoleLog (VObj [("status", VNum 400);
                         ("responseText", VStr password_errors_text)])].
Proof. split; vm_compute; reflexivity. Qed.

(** C3 (the code departs from the claim).  The claim: the object parsed from
    the body of a failed reply is what the error router receives.  The
    code: for a reply of status 401 whose body parses as
    [{__all__: [Invalid credentials]}], the router would render
    [Invalid credentials], but it is never given that object; the form-wide
    error rendered is the transport's status text. *)
Theorem parsed_errors_never_routed :
  parse_credentials (responseText rejected_401) = Some credentials_errors ∧
  routed plain_settings (props_of credentials_errors) =
    [EvRenderFormErrors (VArr [VStr "Invalid credentials"])] ∧
  emitted (on_error parse_credentials plain_settings rejected_401 "error")
          plain_page =
    [EvSetTimeout 200; EvAfterSubmit;
     EvRenderFormErrors (VArr [VStr "error"]);
     EvAfterError "error" 2 rejected_401;
     EvConsoleLog (VStr "AJAX Exception: error");
     EvConsoleLog (VObj [("status", VNum 401);
                         ("responseText", VStr credentials_text)])].
Proof. repeat split; vm_compute; reflexivity. Qed.




(** ** Outstanding requests *)



Lemma run_cons parseJSON s t ts w :
  exec (run parseJSON s (t :: ts)) w =
    exec (run parseJSON s ts) (exec (step parseJSON s t) w).
Proof. unfold run, exec; simpl. by rewrite bind_run. Qed.






(** ** The serializer and its decoder *)

#[local] Arguments String.append !_ _ / : simpl nomatch.

Lemma append_assoc (a b c : string) : (a +:+ b) +:+ c = a +:+ (b +:+ c).
Proof. induction a as [|x a IH]; simpl; [done | by rewrite IH]. Qed.

Lemma length_append (a b : string) :
  String.length (a +:+ b) = String.length a + String.length b.
Proof. induction a as [|x a IH]; simpl; [done | by rewrite IH]. Qed.

(** ** Bytes and code units *)

Lemma forall_bool_spec f : forall_bool f = true → ∀ b, f b = true.
Proof. unfold forall_bool. intros [? ?]%andb_true_iff []; done. Qed.

Lemma forall_ascii_spec f : forall_ascii f = true → ∀ c, f c = true.
Proof.
  intros H [b0 b1 b2 b3 b4 b5 b6 b7]. unfold forall_ascii in H.
  pose proof (forall_bool_spec _ H b0) as H0; cbv beta in H0.
  pose proof (forall_bool_spec _ H0 b1) as H1; cbv beta in H1.
  pose proof (forall_bool_spec _ H1 b2) as H2; cbv beta in H2.
  pose proof (forall_bool_spec _ H2 b3) as H3; cbv beta in H3.
  pose proof (forall_bool_spec _ H3 b4) as H4; cbv beta in H4.
  pose proof (forall_bool_spec _ H4 b5) as H5; cbv beta in H5.
  pose proof (forall_bool_spec _ H5 b6) as H6; cbv beta in H6.
  exact (forall_bool_spec _ H6 b7).
Qed.

(** Linear arithmetic with quotients and remainders by constants. *)
Ltac div_lia := zify; Z.to_euclidean_division_equations; lia.

(** Turn the tests of the goal and of the hypotheses into arithmetic. *)
Ltac bool_lia :=
  repeat (progress
    rewrite ?andb_true_iff, ?andb_false_iff, ?orb_true_iff, ?orb_false_iff,
      ?negb_true_iff, ?negb_false_iff, ?N.leb_le, ?N.leb_gt, ?N.ltb_lt, ?N.ltb_ge,
      ?N.eqb_eq, ?N.eqb_neq in *);
  div_lia.

(** Settle the tests of the goal that arithmetic decides. *)
Ltac decide_tests :=
  repeat match goal with
         | |- context [N.ltb ?a ?b] =>
             first [ replace (N.ltb a b) with true by (symmetry; bool_lia)
                   | replace (N.ltb a b) with false by (symmetry; bool_lia) ]
         | |- context [N.leb ?a ?b] =>
             first [ replace (N.leb a b) with true by (symmetry; bool_lia)
                   | replace (N.leb a b) with false by (symmetry; bool_lia) ]
         | |- context [N.eqb ?a ?b] =>
             first [ replace (N.eqb a b) with true by (symmetry; bool_lia)
                   | replace (N.eqb a b) with false by (symmetry; bool_lia) ]
         end.

Lemma encode_unit_1 u :
  (u < 128)%N → encode_unit u = String (ascii_of_N u) EmptyString.
Proof. intros Hu. unfold encode_unit. by decide_tests. Qed.

Lemma encode_unit_2 u :
  (128 ≤ u < 2048)%N →
  encode_unit u =
    String (ascii_of_N (192 + u / 64)) (String (ascii_of_N (128 + u mod 64)) EmptyString).
Proof. intros Hu. unfold encode_unit. by decide_tests. Qed.

Lemma encode_unit_3 u :
  (2048 ≤ u)%N →
  encode_unit u =
    String (ascii_of_N (224 + u / 4096))
      (String (ascii_of_N (128 + (u / 64) mod 64))
         (String (ascii_of_N (128 + u mod 64)) EmptyString)).
Proof. intros Hu. unfold encode_unit. by decide_tests. Qed.

(** Every JavaScript string has its own [string]: its code units can be
    read off the bytes. *)
Lemma units_of_encode_unit u t :
  (u < 65536)%N → units_of (encode_unit u +:+ t) = u :: units_of t.
Proof.
  intros Hu.
  destruct (N.ltb_spec u 128) as [H1|H1]; [|destruct (N.ltb_spec u 2048) as [H2|H2]].
  - rewrite encode_unit_1 by done. cbn [String.append units_of]. cbv zeta.
    rewrite N_ascii_embedding by lia. by decide_tests.
  - rewrite encode_unit_2 by done. cbn [String.append units_of]. cbv zeta.
    rewrite !N_ascii_embedding by div_lia. decide_tests. f_equal. div_lia.
  - rewrite encode_unit_3 by done. cbn [String.append units_of]. cbv zeta.
    rewrite !N_ascii_embedding by div_lia. decide_tests. f_equal. div_lia.
Qed.

Lemma units_of_js_string us :
  Forall (λ u, (u < 65536)%N) us → units_of (js_string us) = us.
Proof.
  induction 1 as [|u us Hu _ IH]; [done|].
  cbn [js_string]. by rewrite units_of_encode_unit, IH.
Qed.

Lemma js_string_inj us vs :
  Forall (λ u, (u < 65536)%N) us → Forall (λ u, (u < 65536)%N) vs →
  js_string us = js_string vs → us = vs.
Proof.
  intros Hus Hvs Heq.
  by rewrite <- (units_of_js_string us), <- (units_of_js_string vs), Heq.
Qed.

Lemma js_string_app us vs : js_string (us ++ vs) = js_string us +:+ js_string vs.
Proof.
  induction us as [|u us IH]; [done|]. cbn [js_string app].
  by rewrite IH, append_assoc.
Qed.

(** The tests on a byte, on the byte of a number. *)
Lemma is_ED_byte n : (n < 256)%N → JSON.is_ED (ascii_of_N n) = (n =? 237)%N.
Proof. intros Hn. unfold JSON.is_ED. by rewrite N_ascii_embedding. Qed.

Lemma is_cont_byte n :
  (n < 256)%N → JSON.is_cont (ascii_of_N n) = (128 <=? n)%N && (n <=? 191)%N.
Proof. intros Hn. unfold JSON.is_cont. by rewrite N_ascii_embedding. Qed.

Lemma is_lead2_byte n :
  (n < 256)%N → JSON.is_lead2 (ascii_of_N n) = (160 <=? n)%N && (n <=? 175)%N.
Proof. intros Hn. unfold JSON.is_lead2. by rewrite N_ascii_embedding. Qed.

Lemma is_trail2_byte n :
  (n < 256)%N → JSON.is_trail2 (ascii_of_N n) = (176 <=? n)%N && (n <=? 191)%N.
Proof. intros Hn. unfold JSON.is_trail2. by rewrite N_ascii_embedding. Qed.

Lemma is_ED_eq c : JSON.is_ED c = true → c = ascii_of_nat 237.
Proof.
  unfold JSON.is_ED. intros H%N.eqb_eq.
  rewrite <- (ascii_N_embedding c), H. reflexivity.
Qed.

(** ** The decoder on what the serializer writes *)

Lemma digits_read c : digit_reads c = true.
Proof. revert c. apply forall_ascii_spec. vm_compute. reflexivity. Qed.

Lemma hex_value_hex_digit x : (x < 16)%N → JSON.hex_value (JSON.hex_digit x) = Some x.
Proof.
  intros Hx. pose proof (digits_read (ascii_of_N x)) as H. unfold digit_reads in H.
  rewrite N_ascii_embedding in H by lia.
  apply N.ltb_lt in Hx. rewrite Hx in H.
  destruct (JSON.hex_value (JSON.hex_digit x)) as [v|]; [|done].
  apply N.eqb_eq in H. by subst v.
Qed.

(** The decoder reads the escape of every code unit as that code unit. *)
Lemma parse_chars_escape_unit u t :
  (u < 65536)%N →
  JSON.parse_chars (JSON.escape_unit u +:+ t) =
    JSON.prepend_string (encode_unit u) (JSON.parse_chars t).
Proof.
  intros Hu. unfold JSON.escape_unit. cbn [String.append].
  cbn [JSON.parse_chars].
  change (Ascii.eqb "\" JSON.quote_mark) with false.
  change (Ascii.eqb "\" JSON.backslash) with true.
  change (Ascii.eqb "u" "u") with true. cbv iota.
  unfold JSON.hex4. rewrite !hex_value_hex_digit by div_lia.
  replace (((u / 4096 * 16 + (u / 256) mod 16) * 16 + (u / 16) mod 16) * 16
           + u mod 16)%N with u by div_lia.
  done.
Qed.

(** The code unit of a surrogate's bytes, and its bytes. *)
Lemma encode_surrogate_unit c1 c2 c3 :
  JSON.is_ED c1 = true →
  (JSON.is_lead2 c2 || JSON.is_trail2 c2) = true →
  JSON.is_cont c3 = true →
  (JSON.surrogate_unit c2 c3 < 65536)%N ∧
  encode_unit (JSON.surrogate_unit c2 c3) = String c1 (String c2 (String c3 EmptyString)).
Proof.
  intros H1 H2 H3. apply is_ED_eq in H1. subst c1.
  unfold JSON.is_lead2, JSON.is_trail2, JSON.is_cont, JSON.surrogate_unit in *.
  set (a := N_of_ascii c2) in *. set (b := N_of_ascii c3) in *.
  assert (Ha : (160 ≤ a ≤ 191)%N) by bool_lia.
  assert (Hb : (128 ≤ b ≤ 191)%N) by bool_lia.
  clear H2 H3. split; [div_lia|].
  rewrite encode_unit_3 by div_lia.
  replace (224 + (53248 + (a - 128) * 64 + (b - 128)) / 4096)%N with 237%N by div_lia.
  replace (128 + ((53248 + (a - 128) * 64 + (b - 128)) / 64) mod 64)%N with a by div_lia.
  replace (128 + (53248 + (a - 128) * 64 + (b - 128)) mod 64)%N with b by div_lia.
  unfold a, b. by rewrite !ascii_N_embedding.
Qed.

(** Decoding the escape of a character gives the character back. *)
Lemma parse_chars_quote_char c t :
  JSON.parse_chars (JSON.quote_char c +:+ t) = JSON.prepend c (JSON.parse_chars t).
Proof. destruct c as [[] [] [] [] [] [] [] []]; reflexivity. Qed.

(** A byte of a code unit of 0x80 or more is copied. *)
Lemma parse_chars_high c t :
  (128 <=? N_of_ascii c)%N = true →
  JSON.parse_chars (String c t) = JSON.prepend c (JSON.parse_chars t).
Proof.
  intros H. destruct c as [[] [] [] [] [] [] [] []];
    first [reflexivity | by vm_compute in H].
Qed.

Lemma is_ED_high c : JSON.is_ED c = true → (128 <=? N_of_ascii c)%N = true.
Proof. unfold JSON.is_ED. intros H%N.eqb_eq. by rewrite H. Qed.

Lemma is_cont_high c : JSON.is_cont c = true → (128 <=? N_of_ascii c)%N = true.
Proof. unfold JSON.is_cont. by intros [? _]%andb_true_iff. Qed.

Lemma is_lead2_high c : JSON.is_lead2 c = true → (128 <=? N_of_ascii c)%N = true.
Proof.
  unfold JSON.is_lead2. intros [H _]%andb_true_iff.
  apply N.leb_le in H. apply N.leb_le. lia.
Qed.

Lemma is_trail2_high c : JSON.is_trail2 c = true → (128 <=? N_of_ascii c)%N = true.
Proof.
  unfold JSON.is_trail2. intros [H _]%andb_true_iff.
  apply N.leb_le in H. apply N.leb_le. lia.
Qed.

(** Decoding the escape of a surrogate gives its three bytes back. *)
Lemma parse_chars_escape_surrogate c1 c2 c3 t :
  JSON.is_ED c1 = true →
  (JSON.is_lead2 c2 || JSON.is_trail2 c2) = true →
  JSON.is_cont c3 = true →
  JSON.parse_chars (JSON.escape_unit (JSON.surrogate_unit c2 c3) +:+ t) =
    JSON.prepend c1 (JSON.prepend c2 (JSON.prepend c3 (JSON.parse_chars t))).
Proof.
  intros H1 H2 H3.
  destruct (encode_surrogate_unit c1 c2 c3 H1 H2 H3) as [Hu He].
  rewrite parse_chars_escape_unit, He by done.
  by destruct (JSON.parse_chars t) as [[? ?]|].
Qed.

Lemma quote_chars_cases c1 rest1 :
  JSON.quote_chars (String c1 rest1) = JSON.quote_char c1 +:+ JSON.quote_chars rest1
  ∨ (∃ c2 c3 rest3,
       rest1 = String c2 (String c3 rest3) ∧
       JSON.is_ED c1 = true ∧ (JSON.is_lead2 c2 || JSON.is_trail2 c2) = true ∧
       JSON.is_cont c3 = true ∧
       JSON.quote_chars (String c1 rest1) =
         JSON.escape_unit (JSON.surrogate_unit c2 c3) +:+ JSON.quote_chars rest3)
  ∨ (∃ c2 c3 d1 d2 d3 rest6,
       rest1 = String c2 (String c3 (String d1 (String d2 (String d3 rest6)))) ∧
       JSON.is_ED c1 = true ∧ JSON.is_lead2 c2 = true ∧ JSON.is_cont c3 = true ∧
       JSON.is_ED d1 = true ∧ JSON.is_trail2 d2 = true ∧ JSON.is_cont d3 = true ∧
       JSON.quote_chars (String c1 rest1) =
         String c1 (String c2 (String c3 (String d1 (String d2 (String d3
           (JSON.quote_chars rest6))))))).
Proof.
  destruct rest1 as [|c2 [|c3 rest3]]; [by left..|].
  cbn [JSON.quote_chars].
  destruct (JSON.is_ED c1) eqn:H1; [|by left]. cbn [andb].
  destruct (JSON.is_cont c3) eqn:H3; [|rewrite !andb_false_r; by left].
  rewrite !andb_true_r.
  destruct (JSON.is_lead2 c2) eqn:H2.
  - destruct rest3 as [|d1 [|d2 [|d3 rest6]]];
      try (right; left; eexists _, _, _; by rewrite H2).
    destruct (JSON.is_ED d1 && JSON.is_trail2 d2 && JSON.is_cont d3) eqn:Hd.
    + apply andb_true_iff in Hd as [[? ?]%andb_true_iff ?].
      right; right. by eexists _, _, _, _, _, _.
    + right; left. eexists _, _, _. by rewrite H2.
  - destruct (JSON.is_trail2 c2) eqn:H2'; [|by left].
    right; left. eexists _, _, _. by rewrite H2, H2'.
Qed.

Lemma parse_chars_quote_chars s rest :
  JSON.parse_chars (JSON.quote_chars s +:+ String JSON.quote_mark rest) = Some (s, rest).
Proof.
  remember (String.length s) as n eqn:Hn.
  assert (Hle : String.length s ≤ n) by lia. clear Hn.
  revert s rest Hle. induction n as [|n IH]; intros s rest Hle.
  - destruct s; [done | simpl in Hle; lia].
  - destruct s as [|c1 rest1]; [done|]. simpl in Hle.
    destruct (quote_chars_cases c1 rest1)
      as [->|[(c2 & c3 & rest3 & -> & H1 & H2 & H3 & ->)
             |(c2 & c3 & d1 & d2 & d3 & rest6 & -> & H1 & H2 & H3 & H4 & H5 & H6 & ->)]].
    + rewrite append_assoc, parse_chars_quote_char, IH by lia. done.
    + rewrite append_assoc, (parse_chars_escape_surrogate c1) by done.
      simpl in Hle. rewrite IH by lia. done.
    + simpl in Hle. cbn [String.append].
      rewrite (parse_chars_high c1) by by apply is_ED_high.
      rewrite (parse_chars_high c2) by by apply is_lead2_high.
      rewrite (parse_chars_high c3) by by apply is_cont_high.
      rewrite (parse_chars_high d1) by by apply is_ED_high.
      rewrite (parse_chars_high d2) by by apply is_trail2_high.
      rewrite (parse_chars_high d3) by by apply is_cont_high.
      rewrite IH by lia. done.
Qed.

Lemma parse_string_quote s rest :
  JSON.parse_string (JSON.quote s +:+ rest) = Some (s, rest).
Proof.
  change (JSON.parse_chars
            ((JSON.quote_chars s +:+ String JSON.quote_mark EmptyString) +:+ rest)
          = Some (s, rest)).
  rewrite append_assoc. apply parse_chars_quote_chars.
Qed.

(** One member read, up to the separator that follows it. *)
Lemma parse_members_step fuel kv rest acc :
  JSON.parse_members (S fuel) (string_member kv +:+ rest) acc =
    match JSON.skip_ws rest with
    | String d s4 =>
        if Ascii.eqb d "," then JSON.parse_members fuel s4 (put acc kv)
        else if Ascii.eqb d "}" then
          if JSON.all_ws s4 then Some (put acc kv) else None
        else None
    | EmptyString => None
    end.
Proof.
  unfold string_member. rewrite !append_assoc.
  cbn [JSON.parse_members]. rewrite parse_string_quote.
  change (JSON.skip_ws (":" +:+ JSON.quote kv.2 +:+ rest))
    with (String ":" (JSON.quote kv.2 +:+ rest)).
  cbv beta iota. change (Ascii.eqb ":" ":") with true. cbv beta iota.
  by rewrite parse_string_quote.
Qed.

Lemma parse_members_join kv l fuel acc :
  length l < fuel →
  JSON.parse_members fuel (JSON.join (map string_member (kv :: l)) +:+ "}") acc =
    Some (foldl put acc (kv :: l)).
Proof.
  revert kv fuel acc. induction l as [|kv' l IH]; intros kv fuel acc Hfuel.
  - destruct fuel as [|fuel]; [lia|].
    change (JSON.join (map string_member [kv])) with (string_member kv).
    by rewrite parse_members_step.
  - destruct fuel as [|fuel]; [simpl in Hfuel; lia|].
    change (JSON.join (map string_member (kv :: kv' :: l)))
      with (string_member kv +:+ "," +:+ JSON.join (map string_member (kv' :: l))).
    rewrite !append_assoc, parse_members_step.
    change (JSON.skip_ws ("," +:+ ?t)) with (String "," t).
    cbv beta iota. change (Ascii.eqb "," ",") with true. cbv beta iota.
    rewrite IH by (simpl in Hfuel; lia). done.
Qed.

Lemma string_member_length kv : 0 < String.length (string_member kv).
Proof. unfold string_member, JSON.quote. simpl. lia. Qed.

Lemma join_length l : length l ≤ String.length (JSON.join (map string_member l)).
Proof.
  induction l as [|kv [|kv' l] IH]; [simpl; lia | |].
  - pose proof (string_member_length kv). simpl in *. lia.
  - change (JSON.join (map string_member (kv :: kv' :: l)))
      with (string_member kv +:+ "," +:+ JSON.join (map string_member (kv' :: l))).
    rewrite !length_append. pose proof (string_member_length kv).
    simpl in *. lia.
Qed.

Lemma members_of_strings l :
  forallb (λ kv, is_string kv.2) l = true →
  omap JSON.member l = map string_member (string_entries l) ∧
  map (λ kv, (kv.1, VStr kv.2)) (string_entries l) = l.
Proof.
  induction l as [|[k v] l IH]; [done|]. simpl.
  intros [Hv Hl]%andb_true_iff. destruct v; try done.
  destruct (IH Hl) as [IH1 IH2]. split.
  - unfold string_entries in *. simpl. by rewrite <- IH1.
  - unfold string_entries in *. simpl. by rewrite IH2.
Qed.

Lemma foldl_put acc (l : list (string * string)) :
  foldl put acc l =
    foldr (λ kv m, <[kv.1 := kv.2]> m) acc
      (reverse (map (λ kv, (kv.1, VStr kv.2)) l)).
Proof.
  revert acc. induction l as [|kv l IH]; intros acc; [done|]. simpl.
  rewrite IH, reverse_cons, foldr_app. done.
Qed.

Lemma foldr_insert_list_to_map (l : list (string * JsVal)) :
  foldr (λ kv m, <[kv.1 := kv.2]> m) (∅ : gmap string JsVal) l = list_to_map l.
Proof. induction l as [|[k v] l IH]; simpl; [done | by rewrite IH]. Qed.

(** [stringify] is [stringify_value] on the payload object. *)
Lemma stringify_as_value d :
  JSON.stringify_value (VObj (map_to_list d)) = Some (JSON.stringify d).
Proof. reflexivity. Qed.

(** A text that opens an object and then a string literal is handed to
    [parse_members] whole. *)
Lemma parse_open t :
  JSON.parse (String "{" (String JSON.quote_mark t)) =
    JSON.parse_members (S (S (String.length t))) (String JSON.quote_mark t) ∅.
Proof. reflexivity. Qed.

Lemma parse_stringify d :
  only_strings d = true → JSON.parse (JSON.stringify d) = Some d.
Proof.
  unfold only_strings, JSON.stringify. intros Hd.
  destruct (members_of_strings _ Hd) as [Hm Hl]. rewrite Hm.
  destruct (string_entries (map_to_list d)) as [|kv l] eqn:He.
  - simpl in Hl. symmetry in Hl. apply map_to_list_empty_iff in Hl. by subst d.
  - assert (Hstart : ∃ t, JSON.join (map string_member (kv :: l)) +:+ "}"
                          = String JSON.quote_mark t).
    { destruct l; simpl; unfold string_member, JSON.quote; simpl; eauto. }
    destruct Hstart as [t Ht].
    change ("{" +:+ JSON.join (map string_member (kv :: l)) +:+ "}")
      with (String "{" (JSON.join (map string_member (kv :: l)) +:+ "}")).
    rewrite Ht, parse_open, <- Ht.
    rewrite parse_members_join.
    + rewrite foldl_put, Hl, foldr_insert_list_to_map. f_equal.
      rewrite <- (list_to_map_to_list d) at 2.
      apply list_to_map_proper; [|apply reverse_Permutation].
      rewrite fmap_reverse, reverse_Permutation. apply NoDup_fst_map_to_list.
    + assert (Hlen : String.length (JSON.join (map string_member (kv :: l)) +:+ "}")
                     = S (String.length t)) by (by rewrite Ht).
      rewrite length_append in Hlen.
      pose proof (join_length (kv :: l)). simpl in *. lia.
Qed.

(** C8.  Under the default options [prepareData] is the identity, and for
    every payload whose values are all primitive strings (whatever the code
    units of the keys and of the values: control characters, quotes,
    characters beyond ASCII, surrogates in pairs or alone), parsing what the
    default [serializeData] ([JSON.stringify]) makes of the prepared payload
    gives back exactly that payload: the same keys with the same values. *)
Theorem default_serializer_round_trip action method d :
  only_strings d = true →
  let s := default_settings action method JSON.stringify in
  (∀ d', prepareData s d' = d') ∧
  JSON.parse (serializeData s (prepareData s d)) = Some d.
Proof.
  intros Hd s. split; [done|]. simpl. by apply parse_stringify.
Qed.

Lemma default_serializer_round_trip_witness :
  only_strings awkward_payload = true ∧
  JSON.parse (JSON.stringify awkward_payload) = Some awkward_payload.
Proof.
  split; [vm_compute; reflexivity|].
  apply (default_serializer_round_trip "/login" "POST" awkward_payload).
  vm_compute; reflexivity.
Defined.

(** The same for a payload given by the code units of its keys and values. *)
Lemma only_strings_of_units (entries : list (list N * list N)) :
  only_strings (list_to_map (map (λ kv, (js_string kv.1, VStr (js_string kv.2))) entries))
    = true.
Proof.
  unfold only_strings. apply forallb_forall. intros [k v] Hin.
  apply list_elem_of_In, elem_of_map_to_list, elem_of_list_to_map_2 in Hin.
  apply list_elem_of_fmap in Hin as ([k' v'] & Heq & _). by simplify_eq.
Qed.

Lemma code_units_round_trip (entries : list (list N * list N)) :
  let d : gmap string JsVal :=
    list_to_map (map (λ kv, (js_string kv.1, VStr (js_string kv.2))) entries) in
  JSON.parse (JSON.stringify d) = Some d.
Proof. intros d. apply parse_stringify, only_strings_of_units. Qed.

(** The euro sign is the code unit 0x20AC, three bytes; it is written as it
    is, and its escape is read as the same string. *)
Example stringify_euro :
  js_string [8364%N] = String (ascii_of_nat 226) (String (ascii_of_nat 130)
                         (String (ascii_of_nat 172) EmptyString)) ∧
  JSON.stringify {[ "k" := VStr (js_string [8364%N]) ]} =
    "{" +:+ dq +:+ "k" +:+ dq +:+ ":" +:+ dq +:+ js_string [8364%N] +:+ dq +:+ "}" ∧
  JSON.parse ("{" +:+ dq +:+ "k" +:+ dq +:+ ":" +:+ dq +:+ "\u20ac" +:+ dq +:+ "}") =
    Some {[ "k" := VStr (js_string [8364%N]) ]} ∧
  JSON.parse ("{" +:+ dq +:+ "k" +:+ dq +:+ ":" +:+ dq +:+ "\u20AC" +:+ dq +:+ "}") =
    Some {[ "k" := VStr (js_string [8364%N]) ]}.
Proof. repeat split; vm_compute; reflexivity. Qed.

(** A leading surrogate followed by a trailing one (here U+1F600) is written
    as it is; a surrogate on its own is written as its escape; both are read
    back. *)
Example stringify_surrogates :
  JSON.stringify {[ "k" := VStr (js_string [55357%N; 56832%N]) ]} =
    "{" +:+ dq +:+ "k" +:+ dq +:+ ":" +:+ dq +:+ js_string [55357%N; 56832%N]
        +:+ dq +:+ "}" ∧
  JSON.stringify {[ "k" := VStr (js_string [55357%N]) ]} =
    "{" +:+ dq +:+ "k" +:+ dq +:+ ":" +:+ dq +:+ "\ud83d" +:+ dq +:+ "}" ∧
  JSON.stringify {[ "k" := VStr (js_string [56832%N; 55357%N]) ]} =
    "{" +:+ dq +:+ "k" +:+ dq +:+ ":" +:+ dq +:+ "\ude00\ud83d" +:+ dq +:+ "}" ∧
  JSON.parse ("{" +:+ dq +:+ "k" +:+ dq +:+ ":" +:+ dq +:+ "\ud83d\ude00" +:+ dq +:+ "}") =
    Some {[ "k" := VStr (js_string [55357%N; 56832%N]) ]}.
Proof. repeat split; vm_compute; reflexivity. Qed.

(** ** The serializer on the representation and on code units *)

Lemma lead2_not_trail2 c : JSON.is_lead2 c = true → JSON.is_trail2 c = false.
Proof.
  unfold JSON.is_lead2, JSON.is_trail2.
  intros [_ H]%andb_true_iff. apply N.leb_le in H.
  apply andb_false_iff. left. apply N.leb_gt. lia.
Qed.

Lemma quote_chars_plain c1 rest :
  JSON.is_ED c1 = false →
  JSON.quote_chars (String c1 rest) = JSON.quote_char c1 +:+ JSON.quote_chars rest.
Proof.
  intros H. destruct rest as [|c2 [|c3 rest3]]; [done..|].
  cbn [JSON.quote_chars]. by rewrite H.
Qed.

Lemma quote_chars_no_surrogate c1 c2 rest :
  (JSON.is_lead2 c2 || JSON.is_trail2 c2) = false →
  JSON.quote_chars (String c1 (String c2 rest)) =
    JSON.quote_char c1 +:+ JSON.quote_chars (String c2 rest).
Proof.
  intros [H2 H2']%orb_false_iff. destruct rest as [|c3 rest3]; [done|].
  cbn [JSON.quote_chars]. by rewrite H2, H2', !andb_false_r.
Qed.

Lemma quote_chars_lone_lead c1 c2 c3 rest :
  JSON.is_ED c1 = true → JSON.is_lead2 c2 = true → JSON.is_cont c3 = true →
  starts_trail rest = false →
  JSON.quote_chars (String c1 (String c2 (String c3 rest))) =
    JSON.escape_unit (JSON.surrogate_unit c2 c3) +:+ JSON.quote_chars rest.
Proof.
  intros H1 H2 H3 Hr. cbn [JSON.quote_chars]. rewrite H1, H2, H3. cbn [andb].
  destruct rest as [|d1 [|d2 [|d3 rest6]]]; [done..|].
  simpl in Hr. by rewrite Hr.
Qed.

Lemma quote_chars_lone_trail c1 c2 c3 rest :
  JSON.is_ED c1 = true → JSON.is_trail2 c2 = true → JSON.is_cont c3 = true →
  JSON.is_lead2 c2 = false →
  JSON.quote_chars (String c1 (String c2 (String c3 rest))) =
    JSON.escape_unit (JSON.surrogate_unit c2 c3) +:+ JSON.quote_chars rest.
Proof.
  intros H1 H2 H3 H2'. cbn [JSON.quote_chars]. by rewrite H1, H2, H3, H2'.
Qed.

Lemma quote_chars_pair c1 c2 c3 d1 d2 d3 rest :
  JSON.is_ED c1 = true → JSON.is_lead2 c2 = true → JSON.is_cont c3 = true →
  JSON.is_ED d1 = true → JSON.is_trail2 d2 = true → JSON.is_cont d3 = true →
  JSON.quote_chars
    (String c1 (String c2 (String c3 (String d1 (String d2 (String d3 rest)))))) =
    String c1 (String c2 (String c3 (String d1 (String d2 (String d3
      (JSON.quote_chars rest)))))).
Proof.
  intros H1 H2 H3 H4 H5 H6. cbn [JSON.quote_chars].
  by rewrite H1, H2, H3, H4, H5, H6.
Qed.

Lemma chars_quoted_as_units c : quoted_as_unit c = true.
Proof. revert c. apply forall_ascii_spec. vm_compute. reflexivity. Qed.

Lemma quote_char_ascii u :
  (u < 128)%N → JSON.quote_char (ascii_of_N u) = js_string (quote_unit u).
Proof.
  intros Hu. pose proof (chars_quoted_as_units (ascii_of_N u)) as H.
  unfold quoted_as_unit in H. rewrite N_ascii_embedding in H by lia.
  apply N.ltb_lt in Hu. rewrite Hu in H. by apply String.eqb_eq.
Qed.

Lemma quote_char_high n :
  (128 ≤ n < 256)%N →
  JSON.quote_char (ascii_of_N n) = String (ascii_of_N n) EmptyString.
Proof.
  intros Hn. pose proof (chars_quoted_as_units (ascii_of_N n)) as H.
  unfold quoted_as_unit in H. rewrite N_ascii_embedding in H by lia.
  replace (n <? 128)%N with false in H by (symmetry; bool_lia).
  by apply String.eqb_eq.
Qed.

Lemma quote_unit_high u : (128 ≤ u)%N → quote_unit u = [u].
Proof. intros Hu. unfold quote_unit. by decide_tests. Qed.

Lemma encode_unit_ascii c :
  (N_of_ascii c < 128)%N → encode_unit (N_of_ascii c) = String c EmptyString.
Proof. intros Hc. by rewrite encode_unit_1, ascii_N_embedding. Qed.

Lemma hex_digit_ascii x : (x < 16)%N → (N_of_ascii (JSON.hex_digit x) < 128)%N.
Proof.
  intros Hx. unfold JSON.hex_digit.
  destruct (N.ltb_spec x 10); rewrite N_ascii_embedding; lia.
Qed.

Lemma js_string_escape_units u :
  (u < 65536)%N → js_string (escape_units u) = JSON.escape_unit u.
Proof.
  intros Hu. unfold escape_units, JSON.escape_unit. cbn [js_string].
  rewrite !encode_unit_ascii by (apply hex_digit_ascii; div_lia).
  reflexivity.
Qed.

(** The bytes of a surrogate. *)
Lemma surrogate_layout u :
  (u < 65536)%N → (is_lead u || is_trail u) = true →
  ∃ c1 c2 c3,
    encode_unit u = String c1 (String c2 (String c3 EmptyString)) ∧
    JSON.is_ED c1 = true ∧
    (if is_lead u then JSON.is_lead2 c2 else JSON.is_trail2 c2) = true ∧
    JSON.is_cont c3 = true ∧ JSON.surrogate_unit c2 c3 = u ∧
    js_string (escape_units u) = JSON.escape_unit u.
Proof.
  intros Hu Hs. unfold is_lead, is_trail in *.
  assert (Hr : (55296 ≤ u ≤ 57343)%N) by bool_lia.
  exists (ascii_of_N (224 + u / 4096)), (ascii_of_N (128 + (u / 64) mod 64)),
    (ascii_of_N (128 + u mod 64)).
  split; [apply encode_unit_3; lia|].
  rewrite is_ED_byte, is_lead2_byte, is_trail2_byte, is_cont_byte by div_lia.
  unfold JSON.surrogate_unit. rewrite !N_ascii_embedding by div_lia.
  split; [bool_lia|]. split.
  { destruct ((55296 <=? u)%N && (u <=? 56319)%N) eqn:Hl; bool_lia. }
  split; [bool_lia|]. split; [div_lia|]. by apply js_string_escape_units.
Qed.

(** The bytes of a code unit that is no surrogate are quoted one by one. *)
Lemma quote_chars_unit u t :
  (u < 65536)%N → is_lead u = false → is_trail u = false →
  JSON.quote_chars (encode_unit u +:+ t) = js_string (quote_unit u) +:+ JSON.quote_chars t.
Proof.
  intros Hu Hl Ht. unfold is_lead, is_trail in *.
  destruct (N.ltb_spec u 128) as [H1|H1]; [|destruct (N.ltb_spec u 2048) as [H2|H2]].
  - rewrite encode_unit_1 by done. cbn [String.append].
    rewrite quote_chars_plain by (rewrite is_ED_byte by lia; bool_lia).
    by rewrite quote_char_ascii.
  - rewrite encode_unit_2 by done. cbn [String.append].
    rewrite !quote_chars_plain by (rewrite is_ED_byte by div_lia; bool_lia).
    rewrite !quote_char_high by div_lia.
    rewrite quote_unit_high by done. cbn [js_string].
    by rewrite encode_unit_2.
  - rewrite encode_unit_3 by done. cbn [String.append].
    assert (Hhead :
      JSON.quote_chars
        (String (ascii_of_N (224 + u / 4096))
           (String (ascii_of_N (128 + (u / 64) mod 64))
              (String (ascii_of_N (128 + u mod 64)) t))) =
      JSON.quote_char (ascii_of_N (224 + u / 4096)) +:+
      JSON.quote_chars
        (String (ascii_of_N (128 + (u / 64) mod 64))
           (String (ascii_of_N (128 + u mod 64)) t))).
    { destruct (N.eqb_spec (224 + u / 4096) 237) as [He|He].
      - apply quote_chars_no_surrogate.
        rewrite is_lead2_byte, is_trail2_byte by div_lia. bool_lia.
      - apply quote_chars_plain. rewrite is_ED_byte by div_lia. bool_lia. }
    rewrite Hhead.
    rewrite !quote_chars_plain by (rewrite is_ED_byte by div_lia; bool_lia).
    rewrite !quote_char_high by div_lia.
    rewrite quote_unit_high by lia. cbn [js_string].
    by rewrite encode_unit_3.
Qed.

(** The bytes of a code unit that is no trailing surrogate do not begin as
    one. *)
Lemma starts_trail_unit u t :
  (u < 65536)%N → is_trail u = false → starts_trail (encode_unit u +:+ t) = false.
Proof.
  intros Hu Ht. unfold is_trail in *.
  destruct (N.ltb_spec u 128) as [H1|H1]; [|destruct (N.ltb_spec u 2048) as [H2|H2]].
  - rewrite encode_unit_1 by done. cbn [String.append].
    destruct t as [|d2 [|d3 t]]; [done..|]. cbn [starts_trail].
    rewrite is_ED_byte by lia. replace (u =? 237)%N with false by (symmetry; bool_lia).
    done.
  - rewrite encode_unit_2 by done. cbn [String.append].
    destruct t as [|d3 t]; [done|]. cbn [starts_trail].
    rewrite is_ED_byte by div_lia.
    replace (192 + u / 64 =? 237)%N with false by (symmetry; bool_lia). done.
  - rewrite encode_unit_3 by done. cbn [String.append starts_trail].
    rewrite is_ED_byte, is_trail2_byte by div_lia.
    destruct (N.eqb_spec (224 + u / 4096) 237) as [He|He]; [|done].
    replace ((176 <=? 128 + (u / 64) mod 64)%N && (128 + (u / 64) mod 64 <=? 191)%N)
      with false by (symmetry; bool_lia).
    done.
Qed.

(** On the representation of a JavaScript string, [quote_chars] writes the
    representation of what QuoteJSONString writes for its code units. *)
Lemma quote_chars_js_string us :
  Forall (λ u, (u < 65536)%N) us →
  JSON.quote_chars (js_string us) = js_string (quote_units us).
Proof.
  remember (length us) as n eqn:Hn.
  assert (Hle : length us ≤ n) by lia. clear Hn.
  revert us Hle. induction n as [|n IH]; intros us Hle Hus.
  - destruct us; [done | simpl in Hle; lia].
  - destruct us as [|u rest]; [done|]. simpl in Hle.
    apply Forall_cons in Hus as [Hu Hrest].
    cbn [quote_units].
    destruct (is_lead u) eqn:Hl.
    + destruct (surrogate_layout u Hu) as (c1 & c2 & c3 & Heu & H1 & H2 & H3 & Hsu & Hesc);
        [by rewrite Hl|]. rewrite Hl in H2.
      destruct rest as [|v rest'].
      * cbn [js_string]. rewrite Heu. cbn [String.append].
        rewrite quote_chars_lone_lead by done.
        by rewrite Hsu, app_nil_r, Hesc.
      * apply Forall_cons in Hrest as [Hv Hrest'].
        destruct (is_trail v) eqn:Htv.
        -- destruct (surrogate_layout v Hv)
             as (d1 & d2 & d3 & Hev & H4 & H5 & H6 & _ & _);
             [by rewrite Htv, orb_true_r|].
           assert (Hlv : is_lead v = false).
           { unfold is_lead, is_trail in *.
             apply andb_true_iff in Htv as [Htv _]. apply N.leb_le in Htv.
             apply andb_false_iff. right. apply N.leb_gt. lia. }
           rewrite Hlv in H5.
           cbn [js_string]. rewrite Heu, Hev. cbn [String.append].
           rewrite quote_chars_pair by done.
           rewrite IH by first [assumption | simpl in Hle |- *; lia]. done.
        -- change (js_string (u :: v :: rest'))
             with (encode_unit u +:+ js_string (v :: rest')).
           rewrite Heu. cbn [String.append].
           rewrite quote_chars_lone_lead
             by (try done; cbn [js_string]; by apply starts_trail_unit).
           rewrite IH by first [assumption | by constructor | simpl in Hle |- *; lia].
           by rewrite js_string_app, Hsu, Hesc.
    + cbn [js_string]. destruct (is_trail u) eqn:Ht.
      * destruct (surrogate_layout u Hu) as (c1 & c2 & c3 & Heu & H1 & H2 & H3 & Hsu & Hesc);
          [by rewrite Ht, orb_true_r|]. rewrite Hl in H2.
        rewrite Heu. cbn [String.append].
        assert (H2' : JSON.is_lead2 c2 = false).
        { destruct (JSON.is_lead2 c2) eqn:E; [|done].
          apply lead2_not_trail2 in E. congruence. }
        rewrite quote_chars_lone_trail by done.
        rewrite IH by first [assumption | simpl in Hle |- *; lia].
        by rewrite js_string_app, Hsu, Hesc.
      * rewrite quote_chars_unit by done.
        rewrite IH by first [assumption | simpl in Hle |- *; lia].
        by rewrite js_string_app.
Qed.

(** * Further properties *)

(** ** Field collection *)

Lemma field_value_None k fd : field_value k fd = None ↔ k ∉ fd.*1.
Proof.
  induction fd as [|[k' v] fd IH]; simpl.
  - split; [intros _; apply not_elem_of_nil | done].
  - rewrite not_elem_of_cons. destruct (field_value k fd) as [x|].
    + split; [done|]. intros [_ Hk]. by apply IH in Hk.
    + destruct (String.eqb_spec k' k) as [->|Hne].
      * split; [done | by intros []].
      * split; [intros _; split; [congruence | by apply IH] | done].
Qed.

Lemma field_value_app k fd fd' :
  field_value k (fd ++ fd') =
    match field_value k fd' with Some v => Some v | None => field_value k fd end.
Proof.
  induction fd as [|f fd IH]; simpl.
  - by destruct (field_value k fd').
  - rewrite IH. by destruct (field_value k fd').
Qed.

(** X1.  With an empty exclusion list, and for a name other than
    [__proto__] that has neither a static entry nor a [data] handler, the
    payload holds the value of the last control of that name: of several
    controls that share a name (check boxes, a multiple select) only the
    last value is sent. *)
Theorem last_control_wins s fd fd' k v :
  k ≠ "__proto__" →
  excludeFields s = [] →
  static_value s k = None →
  handler_value s k = None →
  k ∉ fd'.*1 →
  collected s (fd ++ (k, v) :: fd') !! k = Some (VStr v).
Proof.
  intros Hp Hex Hs Hh Hk. rewrite collected_lookup, Hs, Hh.
  unfold dom_value. rewrite Hex, collect_fields_lookup, field_value_app. simpl.
  apply String.eqb_neq in Hp. rewrite Hp.
  apply field_value_None in Hk. by rewrite Hk, String.eqb_refl.
Qed.

Lemma last_control_wins_witness :
  "colour" ≠ "__proto__" ∧
  excludeFields plain_settings = [] ∧
  collected plain_settings colour_fields !! "colour" = Some (VStr "blue").
Proof.
  split; [discriminate|]. split; [reflexivity|].
  apply (last_control_wins plain_settings [("colour", "red"); ("size", "L")] []
           "colour" "blue"); [discriminate | reflexivity..|].
  apply not_elem_of_nil.
Defined.

(** A control named [__proto__] leaves no entry in the payload. *)
Example proto_field_not_collected :
  collected plain_settings [("a", "1"); ("__proto__", "x")] = {[ "a" := VStr "1" ]}.
Proof. vm_compute. reflexivity. Qed.

(** X2.  The collected object has an entry for a name other than
    [__proto__] exactly when the exclusion list is empty and a control of
    the form has that name, or a handler of that name has a [data] function,
    or [settings.data] holds a value other than [undefined] for it; it holds
    no other such key. *)
Theorem collected_keys s fd k :
  k ≠ "__proto__" →
  is_Some (collected s fd !! k) ↔
    (excludeFields s = [] ∧ k ∈ fd.*1)
    ∨ is_Some (handler_value s k) ∨ is_Some (static_value s k).
Proof.
  intros Hp%String.eqb_neq. rewrite collected_lookup.
  destruct (static_value s k) as [v|]; [split; eauto|].
  destruct (handler_value s k) as [r|]; [split; eauto|].
  unfold dom_value. destruct (excludeFields s) as [|x excl] eqn:Hex.
  - rewrite collect_fields_lookup, Hp, lookup_empty.
    destruct (field_value k fd) as [v|] eqn:Hv.
    + split; [intros _; left; split; [done|] | eauto].
      destruct (decide (k ∈ fd.*1)) as [|Hn]; [done|].
      apply field_value_None in Hn. congruence.
    + apply field_value_None in Hv.
      split; [by intros [? ?] | intros [[_ ?]|[[? ?]|[? ?]]]; done].
  - rewrite collect_fields_excluding by done. rewrite lookup_empty.
    split; [by intros [? ?] | intros [[? _]|[[? ?]|[? ?]]]; done].
Qed.

Lemma collected_keys_witness :
  "size" ≠ "__proto__" ∧
  (is_Some (collected plain_settings colour_fields !! "size") ↔
     (excludeFields plain_settings = [] ∧ "size" ∈ colour_fields.*1)
     ∨ is_Some (handler_value plain_settings "size")
     ∨ is_Some (static_value plain_settings "size")).
Proof.
  split; [discriminate|].
  apply (collected_keys plain_settings colour_fields "size"). discriminate.
Defined.

(** X3.  When the exclusion list is not empty, what [getFormData] returns
    does not depend on the form at all: it is [prepareData] of the handlers'
    data overlaid with the static data, as for a form with no fields. *)
Theorem nonempty_exclusion_ignores_form s w :
  excludeFields s ≠ [] →
  eval (getFormData s) w = prepareData s (collected s []) ∧
  collected s (formData w) = extend (overlay_handlers (fieldHandlers s) ∅) (data s).
Proof.
  intros Hex. unfold eval. rewrite getFormData_run. simpl.
  unfold collected. by rewrite !collect_fields_excluding.
Qed.

Lemma nonempty_exclusion_ignores_form_witness :
  excludeFields avatar_settings ≠ [] ∧
  eval (getFormData avatar_settings) (idle colour_fields ["colour"; "size"] ∅)
    = prepareData avatar_settings (collected avatar_settings []).
Proof.
  split; [discriminate|].
  apply (nonempty_exclusion_ignores_form avatar_settings
           (idle colour_fields ["colour"; "size"] ∅)). discriminate.
Defined.

(** ** The [data()] calls *)

(** X4.  One collection calls the [data()] of every handler that has one
    exactly once, whether or not the form has a control of that name, and
    calls no other [data()]: the calls between [serializeArray] and
    [prepareData] are the [data()] of a duplicate-free list of keys, which
    are exactly the keys of [fieldHandlers] whose handler has a [data]
    function. *)
Theorem data_called_once_per_handler s w :
  ∃ keys,
    NoDup keys ∧
    (∀ k, k ∈ keys ↔ is_Some (handler_value s k)) ∧
    emitted (getFormData s) w =
      [EvSerializeArray] ++ (EvData <$> keys)
      ++ [EvPrepareData (collected s (formData w))].
Proof.
  exists (reverse (keys_with_data (map_to_list (fieldHandlers s)))). repeat split.
  - rewrite reverse_Permutation.
    apply keys_with_data_NoDup, NoDup_fst_map_to_list.
  - rewrite elem_of_reverse. apply keys_with_data_elem.
  - rewrite elem_of_reverse. apply keys_with_data_elem.
  - apply emitted_app. unfold exec. rewrite getFormData_run. simpl.
    unfold collect_events. by rewrite data_calls_keys.
Qed.

(** ** The error router *)

(** X5.  For an error object that has no [length] property (with one,
    [$.each] may walk it as an array) and on whose entries the routed calls
    return (a handler's own [error], or a default renderer on an array of
    messages and, for the field renderer, a key that is a plain
    identifier), [errorsCallback] makes exactly one
    call per key of the error object, in the object's order: the form-wide
    renderer for the key [__all__] (even when a field handler is registered
    under that name), the handler's own [error] for a key whose handler has
    one, the default field renderer for every other key, whether or not the
    form has such a field.  It changes nothing but the trace. *)
Theorem errorsCallback_routes s errorObject w i k v :
  array_like errorObject = false →
  forallb (route_returns s) errorObject = true →
  errorObject !! i = Some (k, v) →
  let tr := emitted (errorsCallback s errorObject) w in
  length tr = length errorObject ∧
  tr !! i = Some (if String.eqb k "__all__" then EvRenderFormErrors v
                  else match fieldHandlers s !! k with
                       | Some h => if fh_error h then EvFieldError k v
                                   else EvRenderFieldErrors k v
                       | None => EvRenderFieldErrors k v
                       end) ∧
  exec (errorsCallback s errorObject) w =
    upd w (submitDisabled w) (timers w) (inflight w) (trace w ++ tr).
Proof.
  intros _ _ Hi tr.
  assert (Htr : tr = routed s errorObject).
  { apply emitted_app. unfold exec. by rewrite errorsCallback_run. }
  rewrite Htr. unfold routed. repeat split.
  - apply length_map.
  - rewrite list_lookup_fmap, Hi. reflexivity.
  - unfold exec. by rewrite errorsCallback_run.
Qed.

Lemma errorsCallback_routes_witness :
  array_like mixed_errors = false ∧
  forallb (route_returns handled_settings) mixed_errors = true ∧
  mixed_errors !! 1 = Some ("__all__", VArr [VStr "Try again"]) ∧
  emitted (errorsCallback handled_settings mixed_errors) plain_page !! 1
    = Some (EvRenderFormErrors (VArr [VStr "Try again"])).
Proof.
  split; [reflexivity|]. split; [reflexivity|]. split; [reflexivity|].
  apply (errorsCallback_routes handled_settings mixed_errors plain_page 1
           "__all__" (VArr [VStr "Try again"])); reflexivity.
Defined.

(** ** The pre-submit callback *)

(** X6.  On a form each of whose named elements has a handler with its own
    [clear] or a name that is a plain identifier (so that every per-element
    clear returns), [beforeSubmitCallback] clears every
    element of the form that has a [name] attribute, once per element and in
    document order (so twice for two radio buttons of one name), whether or
    not the element is among the serialized or excluded fields: by the
    handler's own [clear] when the handler of that name has one, by the
    default [clearFieldErrors] otherwise, also for a handler that only has
    [error] or [data].  The clears follow [clearFormErrors] and the
    [beforeSubmit] hook comes last; the submit controls end up disabled when
    [disableSubmit] is set, and nothing else changes. *)
Theorem beforeSubmitCallback_clears s w i name :
  forallb (clear_returns s) (namedElems w) = true →
  namedElems w !! i = Some name →
  let tr := emitted (beforeSubmitCallback s) w in
  let first := if disableSubmit s then 2 else 1 in
  length tr = first + length (namedElems w) + 1 ∧
  tr !! (first - 1) = Some EvClearFormErrors ∧
  tr !! (first + i) =
    Some (match fieldHandlers s !! name with
          | Some h => if fh_clear h then EvFieldClear name
                      else EvClearFieldErrors name
          | None => EvClearFieldErrors name
          end) ∧
  tr !! (first + length (namedElems w)) = Some EvBeforeSubmit ∧
  exec (beforeSubmitCallback s) w =
    upd w (disableSubmit s || submitDisabled w) (timers w) (inflight w)
      (trace w ++ tr).
Proof.
  intros _ Hi tr first.
  assert (Htr : tr = before_events s (namedElems w)).
  { apply emitted_app. unfold exec. by rewrite beforeSubmitCallback_run. }
  assert (Hlast : (map (clear_event s) (namedElems w) ++ [EvBeforeSubmit])
                    !! length (namedElems w) = Some EvBeforeSubmit).
  { rewrite lookup_app_r by (by rewrite length_map).
    by rewrite length_map, Nat.sub_diag. }
  assert (Hmid : (map (clear_event s) (namedElems w) ++ [EvBeforeSubmit]) !! i
                 = Some (clear_event s name)).
  { apply lookup_app_l_Some. by rewrite list_lookup_fmap, Hi. }
  assert (Hexec : exec (beforeSubmitCallback s) w =
            upd w (disableSubmit s || submitDisabled w) (timers w) (inflight w)
              (trace w ++ tr))
    by (by rewrite Htr; unfold exec; rewrite beforeSubmitCallback_run).
  split; [|split; [|split; [|split; [|exact Hexec]]]]; clear Hexec;
    rewrite Htr; unfold before_events, first;
    destruct (disableSubmit s); simpl; rewrite ?length_app, ?length_map; simpl;
    first [ lia | exact Hmid | exact Hlast | done ].
Qed.

Lemma beforeSubmitCallback_clears_witness :
  forallb (clear_returns handled_settings) (namedElems profile_page) = true ∧
  namedElems profile_page !! 2 = Some "email" ∧
  emitted (beforeSubmitCallback handled_settings) profile_page !! 4
    = Some (EvFieldClear "email").
Proof.
  split; [reflexivity|]. split; [reflexivity|].
  apply (beforeSubmitCallback_clears handled_settings profile_page 2 "email");
    reflexivity.
Defined.

(** ** One trigger, and runs of triggers *)

Section StepProperties.

Variable parseJSON : JsVal → option JsVal.

Lemma json_events_upd s jqXHR statusText w d t i tr :
  json_events parseJSON s jqXHR statusText (upd w d t i tr) =
    json_events parseJSON s jqXHR statusText w.
Proof. unfold json_events, eval. by rewrite getJSONObject_upd. Qed.

Lemma complete_events_run s r w d t i tr :
  complete parseJSON s r (upd w d t i tr) =
    (tt, upd w d (if disableSubmit s then S t else t) i
           (tr ++ complete_events parseJSON s r w)).
Proof.
  destruct r as [resp|jqXHR statusText]; simpl.
  - by rewrite on_success_run.
  - rewrite on_error_run. unfold error_events. by rewrite json_events_upd.
Qed.

(** What one trigger does to the world. *)
Lemma step_run s t w :
  step parseJSON s t w =
    (tt, upd w (step_disabled s t w) (step_timers s t w) (step_inflight s t w)
           (trace w ++ step_events parseJSON s t w)).
Proof.
  destruct t as [| |r|]; unfold step; simpl.
  - unfold gets. rewrite bind_run; simpl.
    destruct (submitDisabled w) eqn:Hd; simpl.
    + by rewrite app_nil_r, <- Hd, upd_same.
    + erewrite bind_eq by apply submit_handler_run. by rewrite Hd, orb_false_r.
  - by erewrite bind_eq by apply submit_handler_run.
  - unfold gets. rewrite bind_run; simpl.
    destruct (inflight w) as [|r0 rest] eqn:Hi; simpl.
    + by rewrite app_nil_r, <- Hi, upd_same.
    + unfold modify. rewrite bind_run; simpl.
      change (set_inflight rest w)
        with (upd w (submitDisabled w) (timers w) rest (trace w)).
      apply complete_events_run.
  - unfold gets. rewrite bind_run; simpl.
    destruct (timers w) as [|n] eqn:Hn; simpl.
    + by rewrite app_nil_r, <- Hn, upd_same.
    + unfold modify, enable_submit. by rewrite !bind_run.
Qed.

Lemma run_nil s w : run parseJSON s [] w = (tt, w).
Proof. reflexivity. Qed.

Lemma run_trace s ts w :
  trace (exec (run parseJSON s ts) w) = trace w ++ run_events parseJSON s ts w.
Proof.
  revert w. induction ts as [|t ts IH]; intros w.
  - simpl. by rewrite app_nil_r.
  - rewrite run_cons, IH. simpl. rewrite app_assoc. f_equal.
    unfold exec. by rewrite step_run.
Qed.

Lemma run_emitted s ts w :
  emitted (run parseJSON s ts) w = run_events parseJSON s ts w.
Proof. apply emitted_app, run_trace. Qed.

End StepProperties.

(** ** Counting calls *)

Lemma count_events_app P l1 l2 :
  count_events P (l1 ++ l2) = count_events P l1 + count_events P l2.
Proof. unfold count_events. by rewrite filter_app, length_app. Qed.

Lemma count_events_none P l : none_of P l = true → count_events P l = 0.
Proof.
  unfold count_events. induction l as [|e l IH]; simpl; [done|].
  intros [He Hl]%andb_true_iff. apply negb_true_iff in He.
  rewrite filter_cons. destruct (decide (P e = true)); [congruence | by apply IH].
Qed.

Lemma none_of_routed P s errorObject :
  (∀ v, P (EvRenderFormErrors v) = false) →
  (∀ k v, P (EvFieldError k v) = false) →
  (∀ k v, P (EvRenderFieldErrors k v) = false) →
  none_of P (routed s errorObject) = true.
Proof.
  intros H1 H2 H3. unfold routed.
  induction errorObject as [|kv l IH]; simpl; [done|].
  rewrite IH, andb_true_r. unfold route_event.
  destruct (String.eqb kv.1 "__all__"); [by rewrite H1|].
  destruct (fieldHandlers s !! kv.1) as [h|]; [destruct (fh_error h)|];
    by rewrite ?H2, ?H3.
Qed.

Lemma quiet_is_ajax : quiet is_ajax true false false.
Proof. by split. Qed.

Lemma quiet_is_afterSubmit : quiet is_afterSubmit false true false.
Proof. by split. Qed.

Lemma quiet_is_control : quiet is_control false false true.
Proof. by split. Qed.

Section Quiet.

Variable parseJSON : JsVal → option JsVal.
Variable P : Event → bool.
Variables ajax after control : bool.
Hypothesis HP : quiet P ajax after control.

Lemma none_of_collect_events s fd : none_of P (collect_events s fd) = true.
Proof.
  unfold collect_events.
  rewrite !none_of_app, none_of_data_calls by apply HP. simpl.
  by rewrite (quiet_array _ _ _ _ HP), (quiet_prepare _ _ _ _ HP).
Qed.

Lemma count_before_events s names :
  count_events P (before_events s names) =
    if disableSubmit s && control then 1 else 0.
Proof.
  unfold before_events. rewrite !count_events_app.
  rewrite (count_events_none _ (map _ _)) by (apply none_of_clears; apply HP).
  unfold count_events. rewrite !filter_cons, !filter_nil.
  rewrite (quiet_clear_form _ _ _ _ HP), (quiet_before _ _ _ _ HP).
  destruct (disableSubmit s); simpl; [|done].
  rewrite filter_cons, filter_nil, (quiet_disable _ _ _ _ HP).
  by destruct control.
Qed.

Lemma count_submit_events s w :
  count_events P (submit_events s w) =
    (if disableSubmit s && control then 1 else 0) + (if ajax then 1 else 0).
Proof.
  unfold submit_events. rewrite !count_events_app, count_before_events.
  rewrite (count_events_none _ (collect_events _ _)) by apply none_of_collect_events.
  unfold count_events. rewrite !filter_cons, !filter_nil.
  rewrite (quiet_stop _ _ _ _ HP), (quiet_serialize _ _ _ _ HP),
    (quiet_ajax _ _ _ _ HP).
  destruct ajax; simpl; lia.
Qed.

Lemma count_after_events s :
  count_events P (after_events s) =
    (if disableSubmit s && control then 1 else 0) + (if after then 1 else 0).
Proof.
  unfold after_events, count_events.
  destruct (disableSubmit s); simpl;
    rewrite ?filter_cons, ?filter_nil, ?(quiet_timeout _ _ _ _ HP),
      (quiet_after _ _ _ _ HP);
    destruct control, after; done.
Qed.

Lemma count_complete_events s r w :
  count_events P (complete_events parseJSON s r w) =
    (if disableSubmit s && control then 1 else 0) + (if after then 1 else 0).
Proof.
  destruct r as [resp|jqXHR statusText]; simpl.
  - rewrite count_events_app, count_after_events.
    unfold count_events. rewrite filter_cons, filter_nil.
    rewrite (quiet_success _ _ _ _ HP). simpl. lia.
  - unfold error_events. rewrite !count_events_app, count_after_events.
    rewrite !count_events_none; [lia|..].
    + simpl. by rewrite !(quiet_log _ _ _ _ HP).
    + unfold status_events. destruct (Z.eqb (status jqXHR) 0);
        rewrite none_of_app, none_of_routed by apply HP; simpl;
        by rewrite (quiet_after_error _ _ _ _ HP).
    + unfold json_events. destruct (negb _); [|done].
      rewrite none_of_app, none_of_routed by apply HP; simpl.
      by rewrite (quiet_after_error _ _ _ _ HP).
Qed.

End Quiet.

(** ** Cycles and runs *)

(** X7.  On a form each of whose named elements has a handler with its own
    [clear] or a name that is a plain identifier, and from rest (controls
    enabled, no timer, no request), activating a submit control
    issues one request, built from the settings and the payload collected
    then; the answer, a success or a failure, removes it; with
    [disableSubmit] set the controls are disabled from the activation on and
    are still disabled after the answer, until the timer fires.  After the
    timer the form is at rest again, with the same fields, and accepts the
    next submission. *)
Theorem cycle_returns_to_rest parseJSON s r w :
  forallb (clear_returns s) (namedElems w) = true →
  submitDisabled w = false → timers w = 0 → inflight w = [] →
  let w1 := exec (run parseJSON s [ClickSubmit]) w in
  let w2 := exec (run parseJSON s [ClickSubmit; Completion r]) w in
  let w3 := exec (run parseJSON s [ClickSubmit; Completion r; TimerFires]) w in
  inflight w1 = [request_for s (prepareData s (collected s (formData w)))] ∧
  submitDisabled w1 = disableSubmit s ∧
  inflight w2 = [] ∧
  submitDisabled w2 = disableSubmit s ∧
  timers w2 = (if disableSubmit s then 1 else 0) ∧
  submitDisabled w3 = false ∧ timers w3 = 0 ∧ inflight w3 = [] ∧
  formData w3 = formData w ∧ namedElems w3 = namedElems w.
Proof.
  intros _ Hd Ht Hi w1 w2 w3. subst w1 w2 w3.
  rewrite !run_cons. unfold exec. rewrite !run_nil, !step_run. simpl.
  rewrite Hd, Ht, Hi. simpl. destruct (disableSubmit s); simpl; done.
Qed.

Lemma cycle_returns_to_rest_witness :
  let w3 := exec (run parse_anything plain_settings
                    [ClickSubmit; Completion (Failure offline "timeout"); TimerFires])
                 plain_page in
  forallb (clear_returns plain_settings) (namedElems plain_page) = true ∧
  submitDisabled plain_page = false ∧
  submitDisabled w3 = false ∧ timers w3 = 0 ∧ inflight w3 = [].
Proof.
  intros w3. split; [reflexivity|]. split; [reflexivity|].
  pose proof (cycle_returns_to_rest parse_anything plain_settings
                (Failure offline "timeout") plain_page
                eq_refl eq_refl eq_refl eq_refl) as H.
  cbv zeta in H. tauto.
Defined.

Section RunProperties.

Variable parseJSON : JsVal → option JsVal.

Lemma step_events_quiet P ajax after s t w :
  quiet P ajax after true → disableSubmit s = false → timers w = 0 →
  count_events P (step_events parseJSON s t w) ≤
    (if ajax then 1 else 0) + (if after then 1 else 0).
Proof.
  intros HP Hs Ht. destruct t as [| |r|]; simpl.
  - destruct (submitDisabled w); [unfold count_events; simpl; lia|].
    rewrite (count_submit_events _ _ _ _ HP), Hs. simpl. lia.
  - rewrite (count_submit_events _ _ _ _ HP), Hs. simpl. lia.
  - destruct (inflight w); [unfold count_events; simpl; lia|].
    rewrite (count_complete_events _ _ _ _ _ HP), Hs. simpl. lia.
  - rewrite Ht. unfold count_events. simpl. lia.
Qed.

End RunProperties.

(** X8.  With [disableSubmit] not set the plugin never touches the submit
    controls: over every run of triggers (from a state with no pending
    timer) it makes no call that disables or enables them and sets no
    timer, so their [disabled] attribute stays what it was. *)
Theorem controls_untouched_without_disableSubmit parseJSON s ts w :
  disableSubmit s = false → timers w = 0 →
  let w' := exec (run parseJSON s ts) w in
  submitDisabled w' = submitDisabled w ∧ timers w' = 0 ∧
  count_events is_control (emitted (run parseJSON s ts) w) = 0.
Proof.
  intros Hs Ht w'. subst w'. rewrite run_emitted.
  revert w Ht. induction ts as [|t ts IH]; intros w Ht; [done|].
  rewrite run_cons. simpl. rewrite count_events_app.
  pose proof (step_events_quiet parseJSON is_control false false s t w
                quiet_is_control Hs Ht) as Hq. simpl in Hq.
  assert (Hstep : submitDisabled (exec (step parseJSON s t) w) = submitDisabled w
                  ∧ timers (exec (step parseJSON s t) w) = 0).
  { unfold exec. rewrite step_run. simpl.
    destruct t as [| |r|]; simpl; rewrite ?Hs, ?Ht; simpl.
    - by rewrite orb_false_r.
    - done.
    - by destruct (inflight w).
    - done. }
  destruct Hstep as [Hd Ht'].
  destruct (IH _ Ht') as (IH1 & IH2 & IH3).
  rewrite IH1, IH2, IH3, Hd. repeat split; lia.
Qed.

Lemma controls_untouched_without_disableSubmit_witness :
  let ts := [ClickSubmit; ClickSubmit; Completion (Success VNull); TimerFires] in
  disableSubmit unguarded_settings = false ∧
  submitDisabled (exec (run parse_anything unguarded_settings ts) plain_page)
    = submitDisabled plain_page.
Proof.
  intros ts. split; [reflexivity|].
  apply (controls_untouched_without_disableSubmit parse_anything
           unguarded_settings ts plain_page); reflexivity.
Defined.

(** X9.  Over every run of triggers, requests are neither lost nor answered
    twice: the requests issued ([$.ajax] calls) together with those that were
    outstanding at the start are the requests still outstanding at the end
    together with the answers handled, and every answer handled calls the
    [afterSubmit] hook exactly once. *)
Theorem requests_accounted parseJSON s ts w :
  let tr := emitted (run parseJSON s ts) w in
  let w' := exec (run parseJSON s ts) w in
  count_events is_ajax tr + length (inflight w) =
    length (inflight w') + count_events is_afterSubmit tr.
Proof.
  intros tr w'. subst tr w'. rewrite run_emitted.
  revert w. induction ts as [|t ts IH]; intros w;
    [unfold exec, count_events; rewrite run_nil; simpl; lia|].
  rewrite run_cons. simpl. rewrite !count_events_app.
  specialize (IH (exec (step parseJSON s t) w)).
  enough (count_events is_ajax (step_events parseJSON s t w) + length (inflight w)
          = length (inflight (exec (step parseJSON s t) w))
            + count_events is_afterSubmit (step_events parseJSON s t w)) by lia.
  clear IH. unfold exec. rewrite step_run. simpl.
  destruct t as [| |r|]; simpl.
  - destruct (submitDisabled w); [unfold count_events; simpl; lia|].
    rewrite (count_submit_events _ _ _ _ quiet_is_ajax),
      (count_submit_events _ _ _ _ quiet_is_afterSubmit), length_app.
    rewrite !andb_false_r. simpl. lia.
  - rewrite (count_submit_events _ _ _ _ quiet_is_ajax),
      (count_submit_events _ _ _ _ quiet_is_afterSubmit), length_app.
    rewrite !andb_false_r. simpl. lia.
  - destruct (inflight w) as [|r0 rest]; [unfold count_events; simpl; lia|].
    rewrite (count_complete_events _ _ _ _ _ quiet_is_ajax),
      (count_complete_events _ _ _ _ _ quiet_is_afterSubmit).
    rewrite !andb_false_r. simpl. lia.
  - destruct (timers w); unfold count_events; simpl; lia.
Qed.

(** ** The [error] callback, further *)



(** X11.  When the global object does hold a variable [jqXHR] whose
    [responseText] parses as an object (one with no [length] property, and
    on whose entries the routed calls return: see X5), the [error] callback
    routes
    the entries of that object, which come from the global variable and not
    from the reply it was given, calls [afterError] with level 0, and then
    goes on to the status branch all the same: a second routing and a second
    [afterError], of level 1 or 2. *)
Theorem global_jqXHR_classified_twice parseJSON s jqXHR statusText w g text props :
  globals w !! "jqXHR" = Some g →
  get_member g "responseText" = Some text →
  parseJSON text = Some (VObj props) →
  array_like props = false →
  forallb (route_returns s) props = true →
  emitted (on_error parseJSON s jqXHR statusText) w =
    after_events s
    ++ routed s props ++ [EvAfterError statusText 0 jqXHR]
    ++ routed s (form_wide (if Z.eqb (status jqXHR) 0
                            then "Internet connection Lost" else statusText))
    ++ [EvAfterError statusText (if Z.eqb (status jqXHR) 0 then 1 else 2) jqXHR]
    ++ console_events jqXHR statusText.
Proof.
  intros Hg Hm Hp _ _. rewrite on_error_emitted.
  unfold error_events, json_events, status_events, eval, getJSONObject.
  run_acts. rewrite Hg, Hm, Hp. simpl.
  destruct (Z.eqb (status jqXHR) 0); by rewrite <- !app_assoc.
Qed.

Lemma global_jqXHR_classified_twice_witness :
  globals stale_page !! "jqXHR" = Some (VObj [("status", VNum 422);
                                       ("responseText", VStr password_errors_text)]) ∧
  emitted (on_error parse_password_errors plain_settings offline "error") stale_page =
    [EvSetTimeout 200; EvAfterSubmit;
     EvRenderFieldErrors "password" (VArr [VStr "too short"]);
     EvAfterError "error" 0 offline;
     EvRenderFormErrors (VArr [VStr "Internet connection Lost"]);
     EvAfterError "error" 1 offline;
     EvConsoleLog (VStr "AJAX Exception: error");
     EvConsoleLog (VObj [("status", VNum 0); ("responseText", VUndef)])].
Proof.
  split; [reflexivity|].
  apply (global_jqXHR_classified_twice parse_password_errors plain_settings
           offline "error" stale_page
           (VObj [("status", VNum 422); ("responseText", VStr password_errors_text)])
           (VStr password_errors_text)
           [("password", VArr [VStr "too short"])]); reflexivity.
Defined.

(** X12.  Whatever the global object holds and whatever [$.parseJSON] does,
    [getJSONObject] returns either [false] or a value that is an object and
    not [null], never a string, a number or [null]; what it returns does not
    depend on its argument; and it leaves the world as it was. *)
Theorem getJSONObject_object_or_false parseJSON a b w :
  let r := eval (getJSONObject parseJSON a) w in
  (r = VBool false ∨ (typeof_object r = true ∧ r ≠ VNull)) ∧
  eval (getJSONObject parseJSON b) w = r ∧
  exec (getJSONObject parseJSON a) w = w.
Proof.
  intros r. subst r. unfold eval, exec, getJSONObject. run_acts.
  repeat split.
  destruct (globals w !! "jqXHR") as [g|]; [|by left].
  destruct (get_member g "responseText") as [text|]; [|by left].
  destruct (parseJSON text) as [obj|]; [|by left].
  destruct obj; simpl; auto.
Qed.

(** ** The default options, end to end *)

Lemma collected_default action method fd :
  collected (restForm action method no_options) fd = collect_fields [] fd ∅.
Proof.
  unfold collected, extend, overlay_handlers. simpl. by rewrite !map_fold_empty.
Qed.

Lemma collect_fields_only_strings fd : only_strings (collect_fields [] fd ∅) = true.
Proof.
  unfold only_strings. apply forallb_forall. intros [k v] Hin.
  apply list_elem_of_In, elem_of_map_to_list in Hin.
  rewrite collect_fields_lookup, lookup_empty in Hin.
  destruct (String.eqb k "__proto__"); [done|].
  destruct (field_value k fd); by simplify_eq.
Qed.

(** X13.  With no options, and on a form whose named elements all have
    plain identifiers as names (so that every default clear returns), one
    run of the submit listener issues exactly one request, to the form's own
    action with the form's own method, with the time-out 30000 and the
    content type [application/json], and the body of that request decodes to
    exactly the fields of the form: every name of a control, other than
    [__proto__], with the value of the last control of that name, and
    nothing else. *)
Theorem default_request_decodes action method w :
  forallb selector_safe (namedElems w) = true →
  let s := restForm action method no_options in
  let w' := exec (submit_handler s) w in
  ∃ r d,
    inflight w' = inflight w ++ [r] ∧
    r_url r = action ∧ r_type r = method ∧ r_timeout r = 30000%Z ∧
    r_contentType r = "application/json" ∧
    JSON.parse (r_data r) = Some d ∧
    ∀ k, d !! k = if String.eqb k "__proto__" then None
                  else VStr <$> field_value k (formData w).
Proof.
  intros _ s w'. subst w'. unfold exec. rewrite submit_handler_run. simpl.
  eexists _, (collect_fields [] (formData w) ∅). repeat split.
  - unfold s. rewrite collected_default.
    apply parse_stringify, collect_fields_only_strings.
  - intros k. rewrite collect_fields_lookup, lookup_empty.
    destruct (String.eqb k "__proto__"); [done|].
    by destruct (field_value k (formData w)).
Qed.

Lemma default_request_decodes_witness :
  forallb selector_safe (namedElems profile_page) = true ∧
  ∃ r d,
    inflight (exec (submit_handler (restForm "/profile" "PUT" no_options))
                profile_page) = [r] ∧
    JSON.parse (r_data r) = Some d ∧
    d !! "email" = Some (VStr "a@b.c").
Proof.
  split; [reflexivity|].
  destruct (default_request_decodes "/profile" "PUT" profile_page eq_refl)
    as (r & d & Hr & _ & _ & _ & _ & Hd & Hk).
  exists r, d. split; [exact Hr|]. split; [exact Hd|]. exact (Hk "email").
Defined.

